(** * cargo: a verification development for the orchestration core

    Shallow embedding of [libcargo] (cloudenv.go, cluster.go, docker.go,
    variables.go, vars-env.go) and the properties of its run state:
    macro substitution, cross-reference lookup, the image-load cache,
    container creation and start, node fan-out and error aggregation.

    Go strings are byte strings: they are modelled as [string] (a list of
    [ascii] bytes), positions as [nat] where the code can only hold a
    non-negative value and as [Z] where the code tests a sign
    ([strings.Index] returns -1). *)

From Stdlib Require Import ZArith Lia Bool Ascii.
From Stdlib Require String.
From stdpp Require Import base option list gmap strings pretty.

Local Open Scope Z_scope.
Local Open Scope nat_scope.

(* ===================================================================== *)
(** * Go's string primitives used by the package                          *)
(* ===================================================================== *)

Module GoString.

(** [len(s)] *)
Definition len (s : string) : nat := String.length s.

(** [s[lo:hi]]; the callers only slice within bounds. *)
Definition slice (s : string) (lo hi : nat) : string :=
  String.substring lo (hi - lo) s.

(** [s[lo:]] *)
Definition sliceFrom (s : string) (lo : nat) : string :=
  String.substring lo (len s - lo) s.

(** [strings.Index(s, string(c))] for a one-byte separator: the position
    of the first occurrence, or -1. *)
Fixpoint IndexFrom (c : ascii) (s : string) (pos : nat) : Z :=
  match s with
  | EmptyString => (-1)%Z
  | String a rest =>
      if Ascii.eqb a c then Z.of_nat pos else IndexFrom c rest (S pos)
  end.

Definition Index (s : string) (c : ascii) : Z := IndexFrom c s 0.

(** [strings.LastIndex(s, string(c))]: the position of the last
    occurrence, or -1. *)
Fixpoint LastIndexFrom (c : ascii) (s : string) (pos : nat) (found : Z) : Z :=
  match s with
  | EmptyString => found
  | String a rest =>
      LastIndexFrom c rest (S pos)
        (if Ascii.eqb a c then Z.of_nat pos else found)
  end.

Definition LastIndex (s : string) (c : ascii) : Z :=
  LastIndexFrom c s 0 (-1)%Z.

(** [strings.HasPrefix] *)
Definition HasPrefix (s p : string) : bool := String.prefix p s.

(** [strings.Trim(s, cutset)]: leading and trailing bytes of the cutset
    removed. *)
Fixpoint inCutset (cutset : string) (c : ascii) : bool :=
  match cutset with
  | EmptyString => false
  | String a rest => Ascii.eqb a c || inCutset rest c
  end.

Fixpoint TrimLeft (s cutset : string) : string :=
  match s with
  | EmptyString => EmptyString
  | String c rest => if inCutset cutset c then TrimLeft rest cutset else s
  end.

Fixpoint TrimRight (s cutset : string) : string :=
  match s with
  | EmptyString => EmptyString
  | String c rest =>
      match TrimRight rest cutset with
      | EmptyString => if inCutset cutset c then EmptyString else String c EmptyString
      | r => String c r
      end
  end.

Definition Trim (s cutset : string) : string :=
  TrimRight (TrimLeft s cutset) cutset.

(** The cutset [" \n\r\t\f"] of docker.go and cloudenv.go. *)
Definition blanks : string :=
  String " "%char (String "010"%char (String "013"%char
    (String "009"%char (String "012"%char EmptyString)))).

(** [strconv.Atoi]: an optional sign, then one or more decimal digits,
    the value within the range of a 64-bit [int]; anything else is an
    error ([None]). *)
Definition digit (c : ascii) : option Z :=
  let n := nat_of_ascii c in
  if (48 <=? n) && (n <=? 57) then Some (Z.of_nat (n - 48)) else None.

Fixpoint digits (s : string) (acc : Z) : option Z :=
  match s with
  | EmptyString => Some acc
  | String c rest =>
      match digit c with
      | Some d => digits rest (acc * 10 + d)%Z
      | None => None
      end
  end.

Definition Atoi (s : string) : option Z :=
  let '(neg, body) :=
    match s with
    | String "-"%char rest => (true, rest)
    | String "+"%char rest => (false, rest)
    | _ => (false, s)
    end in
  match body with
  | EmptyString => None
  | _ =>
      match digits body 0%Z with
      | Some n =>
          let v := if neg then (- n)%Z else n in
          if ((- 2 ^ 63 <=? v) && (v <? 2 ^ 63))%Z then Some v else None
      | None => None
      end
  end.

End GoString.

(* ===================================================================== *)
(** * Go's [path] package, as cloudenv.go uses it                         *)
(* ===================================================================== *)

Module GoPath.

(** [path.IsAbs] *)
Definition IsAbs (p : string) : bool :=
  match p with
  | String "/"%char _ => true
  | _ => false
  end.

(** The elements of a path between its slashes; [cur] is the element
    being read, in reverse. *)
Fixpoint elements (p : string) (cur : string) : list string :=
  match p with
  | EmptyString => [String.rev cur]
  | String c rest =>
      if Ascii.eqb c "/"%char then String.rev cur :: elements rest EmptyString
      else elements rest (String c cur)
  end.

(** One element applied to the elements kept so far (innermost first).
    Empty elements and [.] are dropped; [..] removes the last kept
    element, is dropped at the root, and is kept in front of a relative
    path. *)
Definition cleanStep (rooted : bool) (kept : list string) (e : string) : list string :=
  if String.eqb e "" || String.eqb e "." then kept
  else if String.eqb e ".." then
    match kept with
    | [] => if rooted then [] else [e]
    | top :: below => if String.eqb top ".." then e :: kept else below
    end
  else e :: kept.

Fixpoint joinSlash (es : list string) : string :=
  match es with
  | [] => ""
  | [e] => e
  | e :: rest => e +:+ "/" +:+ joinSlash rest
  end.

(** [path.Clean]: the shortest path equivalent by purely lexical
    processing. *)
Definition Clean (p : string) : string :=
  match p with
  | EmptyString => "."
  | _ =>
      let rooted := IsAbs p in
      let kept := rev (fold_left (cleanStep rooted) (elements p EmptyString) []) in
      if rooted then "/" +:+ joinSlash kept
      else match kept with [] => "." | _ => joinSlash kept end
  end.

(** [path.Join]: the non-empty elements joined by slashes and cleaned;
    the empty string if there are none. *)
Definition Join (elem : list string) : string :=
  match filter (fun e => e ≠ "") elem with
  | [] => ""
  | es => Clean (joinSlash es)
  end.

End GoPath.

Import GoString.

(* ===================================================================== *)
(** * variables.go: variable repositories                                 *)
(* ===================================================================== *)

(** A lookup answers with Go's pair [(val, exists)]. *)
Definition QueryResult : Type := (string * bool)%type.

Definition notFound : QueryResult := ("", false).

(** [localVars]: a flat map guarded by its own read-write lock. *)
Record localVars := LocalVars { values : gmap string string }.

Definition LocalVarsRepo : localVars := LocalVars ∅.

(** [localVars.QueryVar]: [val, exists = vs.values[name]]. *)
Definition localVars_QueryVar (vs : localVars) (name : string) : QueryResult :=
  match values vs !! name with
  | Some v => (v, true)
  | None => ("", false)
  end.

(** [localVars.UpdateVar] *)
Definition localVars_UpdateVar (vs : localVars) (name value : string) : localVars :=
  LocalVars (<[name := value]> (values vs)).

(* ===================================================================== *)
(** * cloudenv.go: macro substitution                                     *)
(* ===================================================================== *)

Module Subst.

(** The character class [[^()]] of [varRegExp].  The expression is
    compiled with [regexp.MustCompilePOSIX], whose syntax flags do not
    let a negated class match a newline. *)
Definition nameChar (c : ascii) : bool :=
  negb (Ascii.eqb c "("%char || Ascii.eqb c ")"%char || Ascii.eqb c "010"%char).

(** Length of the longest prefix made of [nameChar] bytes. *)
Fixpoint nameRun (s : string) : nat :=
  match s with
  | String c rest => if nameChar c then S (nameRun rest) else 0
  | EmptyString => 0
  end.

(** The byte at offset [n], if any. *)
Definition byteAt (s : string) (n : nat) : option ascii := String.get n s.

(** [varRegExp = %\([^()]+\)] anchored at the head of [s]: the length of
    the match.  The class excludes [)], so the run of name bytes of a
    match is the maximal one and must be followed by [)]. *)
Definition varRegExp (s : string) : option nat :=
  match s with
  | String "%"%char (String "("%char rest) =>
      let n := nameRun rest in
      match byteAt rest n with
      | Some ")"%char => if 0 <? n then Some (n + 3) else None
      | _ => None
      end
  | _ => None
  end.

(** [varRegExp.FindAllStringIndex(text, -1)]: the successive leftmost
    non-overlapping matches as pairs [(start, end)], [end] exclusive.
    [skip] counts the bytes of the current match still to be passed. *)
Fixpoint scan (s : string) (pos skip : nat) : list (nat * nat) :=
  match s with
  | EmptyString => []
  | String _ rest =>
      match skip with
      | S k => scan rest (S pos) k
      | O =>
          match varRegExp s with
          | Some n => (pos, pos + n) :: scan rest (S pos) (n - 1)
          | None => scan rest (S pos) 0
          end
      end
  end.

Definition FindAllStringIndex (text : string) : list (nat * nat) :=
  scan text 0 0.

(** One iteration of the loop of [Substitute]; the loop state is
    [(result, curpos)]. *)
Definition substStep (QueryVar : string -> QueryResult) (text : string)
    (st : string * nat) (index : nat * nat) : string * nat :=
  let '(result, curpos) := st in
  let '(start, end_) := index in
  let result := if curpos <? start
                then result +:+ slice text curpos start else result in
  let curpos := end_ + 1 in
  let name := slice text (start + 2) (end_ - 1) in
  let '(val, exists_) := QueryVar name in
  (if exists_ then result +:+ val else result, curpos).

(** [CloudState.Substitute(text, context)].  [QueryVar] stands for
    [cs.vars.QueryVar(_, context)]. *)
Definition Substitute (QueryVar : string -> QueryResult) (text : string) : string :=
  let '(result, curpos) :=
    fold_left (substStep QueryVar text) (FindAllStringIndex text) ("", 0) in
  if curpos <? len text then result +:+ sliceFrom text curpos else result.

(** A macro-delimited reference somewhere in a text, read off the
    pattern: [%(], one or more bytes other than parentheses, [)]. *)
Definition notParen (c : ascii) : bool :=
  negb (Ascii.eqb c "("%char || Ascii.eqb c ")"%char).

Fixpoint allBytes (P : ascii -> bool) (s : string) : bool :=
  match s with
  | EmptyString => true
  | String c rest => P c && allBytes P rest
  end.

Definition containsReference (text : string) : Prop :=
  exists pre name post,
    text = pre +:+ "%(" +:+ name +:+ ")" +:+ post
    /\ name <> "" /\ allBytes notParen name = true.

(** What the substitution is meant to compute: every reference replaced
    by its value or by nothing, every other byte kept. *)
Fixpoint intended (QueryVar : string -> QueryResult) (s : string) (skip : nat) : string :=
  match s with
  | EmptyString => ""
  | String c rest =>
      match skip with
      | S k => intended QueryVar rest k
      | O =>
          match varRegExp s with
          | Some n =>
              let '(val, exists_) := QueryVar (slice s 2 (n - 1)) in
              (if exists_ then val else "") +:+ intended QueryVar rest (n - 1)
          | None => String c (intended QueryVar rest 0)
          end
      end
  end.

End Subst.


(* ===================================================================== *)
(** * contracts.go and cloudenv.go: the data model                        *)
(* ===================================================================== *)

(** A Go [error] value, identified by its message; [nil] is [None]. *)
Definition error : Type := string.

Record DockerProperties := {
  Entrypoint : string;
  Cmd : list string;
  Env : list string;
  Privileged : bool;
  Volumes : list string
}.

(** A command group; cloudenv.go reads [Shell] and [Commands]. *)
Record Commands := {
  Shell : string;
  CommandList : list string
}.

Record Node := {
  Name : string;
  Instances : nat;
  Image : string;
  Docker : DockerProperties;
  NodeCommands : gmap string Commands
}.

Record InstanceState := {
  is_Index : nat;
  is_ContainerId : string;
  is_LocalVars : localVars;
  is_Error : option error;
  is_Stopped : bool;
  is_cidfile : string
}.

Record NodeState := {
  ns_Node : Node;
  ns_Image : string;
  ns_LocalVars : localVars;
  ns_DockerArgs : list string;
  ns_Instances : list InstanceState;
  ns_Error : option error;
  ns_Stopped : bool
}.

(** The part of [CloudState] that lookups and error aggregation read. *)
Record CloudState := {
  cs_DataDir : string;
  cs_RunFlags : N;
  cs_Nodes : list NodeState;
  cs_stateDir : string;
  cs_workspace : string
}.

(** Run flags. *)
Module Flag.
Definition Create : N := 0x0001.
Definition Prepare : N := 0x0002.
Definition Run : N := 0x0004.
Definition Detach : N := 0x0008.
Definition Stop : N := 0x0010.
Definition Remove : N := 0x0020.
End Flag.

Definition hasFlag (flags flag : N) : bool := negb (N.land flags flag =? 0)%N.

Definition workspace : string := "/.cargo.workspace".

(** [VarContext].  The pointers [Node] and [Instance] are compared by
    identity only: a node is named by its position in [cs.Nodes], an
    instance by the positions of its node and of itself; [nil] is [None]. *)
Record VarContext := {
  Cloud : CloudState;
  ctx_Node : option nat;
  ctx_Instance : option (nat * nat)
}.

(* ===================================================================== *)
(** * cloudenv.go: error aggregation                                      *)
(* ===================================================================== *)

Definition isNil (e : option error) : bool :=
  match e with None => true | Some _ => false end.

(** [NodeState.AnyError]: the loop over [ns.Instances], leaving at the
    first instance with an error. *)
Fixpoint instancesAnyError (iss : list InstanceState) : bool :=
  match iss with
  | [] => false
  | i :: rest => if negb (isNil (is_Error i)) then true else instancesAnyError rest
  end.

Definition NodeState_AnyError (ns : NodeState) : bool :=
  instancesAnyError (ns_Instances ns).

(** [CloudState.AnyError]: the loop over [cs.Nodes]. *)
Fixpoint nodesAnyError (nss : list NodeState) : bool :=
  match nss with
  | [] => false
  | ns :: rest =>
      if negb (isNil (ns_Error ns)) || NodeState_AnyError ns then true
      else nodesAnyError rest
  end.

Definition CloudState_AnyError (cs : CloudState) : bool :=
  nodesAnyError (cs_Nodes cs).

(* ===================================================================== *)
(** * cluster.go: the cross-reference provider                            *)
(* ===================================================================== *)

Module Xref.

(** What a requester sees of its target each time it evaluates the
    condition of its wait loop: the [Stopped] flag, then the local
    variables. *)
Record Observation := {
  obs_Stopped : bool;
  obs_LocalVars : localVars
}.

(** [findNode]: the position of the first node state whose node has the
    given name. *)
Fixpoint findNodeFrom (nss : list NodeState) (name : string) (i : nat) : option nat :=
  match nss with
  | [] => None
  | ns :: rest =>
      if String.eqb (Name (ns_Node ns)) name then Some i
      else findNodeFrom rest name (S i)
  end.

Definition findNode (ctx : VarContext) (name : string) : option nat :=
  findNodeFrom (cs_Nodes (Cloud ctx)) name 0.

(** The loop of [queryNode] and of [queryInstance], entered with the
    activation lock held:
    [for !target.Stopped { if val, exists = ...; exists { break }; Wait() }].
    [cur] is the pair [(val, exists)] as last assigned.  Each round
    consumes one observation; when none is left the requester is still
    blocked in [Wait] and there is no answer. *)
Fixpoint waitLoop (key : string) (cur : QueryResult) (obs : list Observation)
    : option QueryResult :=
  match obs with
  | [] => None
  | o :: later =>
      if obs_Stopped o then Some cur
      else
        let r := localVars_QueryVar (obs_LocalVars o) key in
        if snd r then Some r else waitLoop key r later
  end.

(** [queryNode] *)
Definition queryNode (ctx : VarContext) (ref key : string) (obs : list Observation)
    : option QueryResult :=
  match findNode ctx ref with
  | None => Some notFound
  | Some n =>
      match cs_Nodes (Cloud ctx) !! n with
      | None => Some notFound
      | Some ns =>
          let r := localVars_QueryVar (ns_LocalVars ns) key in
          if snd r || bool_decide (Some n = ctx_Node ctx) then Some r
          else waitLoop key r obs
      end
  end.

(** [queryInstance] *)
Definition queryInstance (ctx : VarContext) (ref key : string) (obs : list Observation)
    : option QueryResult :=
  let pos := LastIndex ref "-" in
  if (pos <=? 0)%Z then Some notFound
  else
    match findNode ctx (slice ref 0 (Z.to_nat pos)) with
    | None => Some notFound
    | Some n =>
        match cs_Nodes (Cloud ctx) !! n with
        | None => Some notFound
        | Some ns =>
            match Atoi (sliceFrom ref (Z.to_nat pos + 1)) with
            | None => Some notFound
            | Some index =>
                if (index <? 0)%Z
                   || (Z.of_nat (length (ns_Instances ns)) <=? index)%Z
                then Some notFound
                else
                  match ns_Instances ns !! Z.to_nat index with
                  | None => Some notFound
                  | Some is_ =>
                      let r := localVars_QueryVar (is_LocalVars is_) key in
                      if snd r
                         || bool_decide (Some (n, Z.to_nat index) = ctx_Instance ctx)
                      then Some r
                      else waitLoop key r obs
                  end
            end
        end
    end.

(** The text before the first colon of a name: the key under which the
    provider looks in the scope of its target. *)
Definition key (name : string) : string :=
  slice name 0 (Z.to_nat (Index name ":")).

(** [providerXref.QueryVar] *)
Definition QueryVar (name : string) (ctx : VarContext) (obs : list Observation)
    : option QueryResult :=
  let pos := Index name ":" in
  if (pos <=? 0)%Z then Some notFound
  else
    let key := slice name 0 (Z.to_nat pos) in
    let ref := sliceFrom name (Z.to_nat pos + 1) in
    if String.eqb key "instances" then queryNode ctx ref key obs
    else if String.eqb key "ip" || String.eqb key "mac"
    then queryInstance ctx ref key obs
    else Some notFound.

(** The references the provider cannot follow. *)
Inductive Malformed (ctx : VarContext) : string -> string -> Prop :=
| NoSeparator key ref :
    key = "ip" \/ key = "mac" ->
    (LastIndex ref "-" <= 0)%Z ->
    Malformed ctx key ref
| UnknownNode key ref :
    key = "ip" \/ key = "mac" ->
    findNode ctx (slice ref 0 (Z.to_nat (LastIndex ref "-"))) = None ->
    Malformed ctx key ref
| NotANumber key ref :
    key = "ip" \/ key = "mac" ->
    Atoi (sliceFrom ref (Z.to_nat (LastIndex ref "-") + 1)) = None ->
    Malformed ctx key ref
| OutOfRange key ref n ns index :
    key = "ip" \/ key = "mac" ->
    findNode ctx (slice ref 0 (Z.to_nat (LastIndex ref "-"))) = Some n ->
    cs_Nodes (Cloud ctx) !! n = Some ns ->
    Atoi (sliceFrom ref (Z.to_nat (LastIndex ref "-") + 1)) = Some index ->
    (index < 0 \/ Z.of_nat (length (ns_Instances ns)) <= index)%Z ->
    Malformed ctx key ref
| UnknownNodeCount ref :
    findNode ctx ref = None ->
    Malformed ctx "instances" ref.

End Xref.

(* ===================================================================== *)
(** * vars-env.go and variables.go: the global repository                 *)
(* ===================================================================== *)

(** [providerEnv.QueryVar]; [getenv] is [os.Getenv]. *)
Definition providerEnv_QueryVar (getenv : string -> string) (name : string) : QueryResult :=
  if HasPrefix name "env:" then (getenv (sliceFrom name 4), true) else ("", true).

(** The providers registered by the [init] functions. *)
Inductive VarProvider := ProviderEnv | ProviderXref.

Definition VarProviders (prefix : string) : option VarProvider :=
  if String.eqb prefix "env" then Some ProviderEnv
  else if String.eqb prefix "instances" || String.eqb prefix "ip"
          || String.eqb prefix "mac" then Some ProviderXref
  else None.

(** [globalVars.QueryVar]: the map first, then the provider registered
    under the text before the first colon. *)
Definition globalVars_QueryVar (getenv : string -> string) (vs : localVars)
    (name : string) (ctx : VarContext) (obs : list Xref.Observation)
    : option QueryResult :=
  let r := localVars_QueryVar vs name in
  if snd r then Some r
  else
    let pos := Index name ":" in
    if (0 <? pos)%Z then
      match VarProviders (slice name 0 (Z.to_nat pos)) with
      | Some ProviderEnv => Some (providerEnv_QueryVar getenv name)
      | Some ProviderXref => Xref.QueryVar name ctx obs
      | None => Some r
      end
    else Some r.

(* ===================================================================== *)
(** * docker.go: the container driver                                     *)
(* ===================================================================== *)

Module Driver.

(** What the driver does to the host, in order. *)
Inductive Event :=
| Command (args : list string)   (* a docker command run to completion *)
| Launch (args : list string)    (* [cmd.Start()]: launched, not awaited *)
| WgAdd                          (* [wg.Add(1)] and the task awaiting the process *)
| Sleep (ms : nat)               (* [time.Sleep], in milliseconds *)
| ReadFile (path : string)
| RemoveFile (path : string)
| WriteFile (path content : string)
| MkdirAll (path : string).

Record World := {
  files : gmap string string;
  log : list Event
}.

(** The outcome of a docker command: its standard output, its error,
    and the files of the shared mount after it. *)
Record CmdResult := {
  cr_out : string;
  cr_err : option error;
  cr_files : gmap string string
}.

(** The host outside the program: the container engine, the launching
    of processes, and the faults of the file system.  Each answer may
    depend on everything that happened before. *)
Record Host := {
  engine : World -> list string -> CmdResult;
  launch : World -> list string -> option error;
  fsFault : World -> Event -> option error
}.

Inductive FsError := ErrNotExist | ErrOther (e : error).

Definition M (A : Type) : Type := World -> A * World.

Definition ret {A} (a : A) : M A := fun w => (a, w).

Definition bind {A B} (m : M A) (k : A -> M B) : M B :=
  fun w => let '(a, w') := m w in k a w'.

Declare Scope driver_scope.
Delimit Scope driver_scope with driver.
Notation "'do' p <- m ; k" := (bind m (fun p => k))
  (at level 10, p pattern, m at level 100, k at level 200) : driver_scope.
Notation "'call' m ; k" := (bind m (fun _ => k))
  (at level 10, m at level 100, k at level 200) : driver_scope.
Local Open Scope driver_scope.

(** The world with one more event in its log. *)
Definition logged (w : World) (e : Event) : World :=
  {| files := files w; log := log w ++ [e] |}.

Definition emit (e : Event) : M unit := fun w => (tt, logged w e).

Definition errorStartTimeout : error := "Start timeout".


Section WithHost.

Variable host : Host.

(** File operations of [os] and [ioutil]. *)
Definition readFile (path : string) : M (string * option FsError) :=
  fun w =>
    let w' := logged w (ReadFile path) in
    match fsFault host w (ReadFile path) with
    | Some e => (("", Some (ErrOther e)), w')
    | None =>
        match files w !! path with
        | Some content => ((content, None), w')
        | None => (("", Some ErrNotExist), w')
        end
    end.

Definition osRemove (path : string) : M (option FsError) :=
  fun w =>
    let lg := log w ++ [RemoveFile path] in
    match fsFault host w (RemoveFile path) with
    | Some e => (Some (ErrOther e), {| files := files w; log := lg |})
    | None =>
        match files w !! path with
        | Some _ => (None, {| files := delete path (files w); log := lg |})
        | None => (Some ErrNotExist, {| files := files w; log := lg |})
        end
    end.

Definition writeFile (path content : string) : M (option error) :=
  fun w =>
    let lg := log w ++ [WriteFile path content] in
    match fsFault host w (WriteFile path content) with
    | Some e => (Some e, {| files := files w; log := lg |})
    | None => (None, {| files := <[path := content]> (files w); log := lg |})
    end.

Definition mkdirAll (path : string) : M (option error) :=
  fun w => (fsFault host w (MkdirAll path), logged w (MkdirAll path)).

(** The world after a docker command has run to completion. *)
Definition afterCommand (w : World) (args : list string) : World :=
  {| files := cr_files (engine host w args); log := log w ++ [Command args] |}.

(** [d.cmd(arg...).Run()] *)
Definition cmdRun (args : list string) : M (option error) :=
  fun w => (cr_err (engine host w args), afterCommand w args).

(** [d.cmd(arg...).Start()] *)
Definition cmdStart (args : list string) : M (option error) :=
  fun w => (launch host w args, logged w (Launch args)).

(** [d.cmdOutput] *)
Definition cmdOutput (args : list string) : M (string * option error) :=
  fun w =>
    let r := engine host w args in
    match cr_err r with
    | Some e => (("", Some e), afterCommand w args)
    | None => ((Trim (cr_out r) blanks, None), afterCommand w args)
    end.

Definition Inspect (cid fmt : string) : M (string * option error) :=
  cmdOutput ["inspect"; "-f"; fmt; cid].

Definition isRunning (cid : string) : M (bool * option error) :=
  do (running, err) <- Inspect cid "{{.State.Running}}" ;
  ret (String.eqb running "true", err).

(** The command behind [isRunning]. *)
Definition runningQuery (cid : string) : list string :=
  ["inspect"; "-f"; "{{.State.Running}}"; cid].


Definition Pull (image : string) : M (option error) := cmdRun ["pull"; image].
Definition Stop (cid : string) : M (option error) := cmdRun ["stop"; cid].
Definition RmForce (cid : string) : M (option error) := cmdRun ["rm"; "--force"; cid].
Definition Exec (cid : string) (args : list string) : M (option error) :=
  cmdRun (["exec"; cid] ++ args).

(** [docker.Create] *)
Definition Create (cidfile : string) (args : list string)
    : M (string * option error) :=
  let cmdArgs := ["create"; "--cidfile=" +:+ cidfile] ++ args in
  do (cidBytes, rerr) <- readFile cidfile ;
  let cid := match rerr with None => cidBytes | Some _ => "" end in
  do (cid, cmdArgs) <-
    (if negb (String.eqb cid "") then
       do (running, err) <- isRunning cid ;
       match err with
       | None =>
           call (if running then call Stop cid ; ret tt else ret tt) ;
           ret (cid, cmdArgs ++ ["--volumes-from=" +:+ cid])
       | Some _ => ret ("", cmdArgs)
       end
     else ret (cid, cmdArgs)) ;
  do rmerr <- osRemove cidfile ;
  match rmerr with
  | Some (ErrOther e) => ret ("", Some e)
  | _ =>
      do (newCid, err) <- cmdOutput cmdArgs ;
      call (if negb (String.eqb cid "") then
              match err with
              | None => call RmForce cid ; ret tt
              | Some _ => call writeFile cidfile cid ; ret tt
              end
            else ret tt) ;
      ret (newCid, err)
  end.

(** The confirmation loop of [docker.Start]: [attempts] rounds are
    left and [i] is the loop counter. *)
Fixpoint pollRunning (cid : string) (attempts i : nat) : M (option error) :=
  match attempts with
  | 0 => ret (Some errorStartTimeout)
  | S remaining =>
      do (running, err) <- isRunning cid ;
      if isNil err && running then ret None
      else call emit (Sleep ((i + 1) * 100)) ; pollRunning cid remaining (S i)
  end.

(** [docker.Start]; [wg] tells whether a wait group was passed. *)
Definition Start (cid : string) (wg : bool) : M (option error) :=
  let args := ["start"] ++ (if wg then ["-a"] else []) ++ [cid] in
  if negb wg then cmdRun args
  else
    do err <- cmdStart args ;
    match err with
    | Some e => ret (Some e)
    | None => call emit WgAdd ; pollRunning cid 8 0
    end.

End WithHost.

End Driver.

(* ===================================================================== *)
(** * cloudenv.go: the instance lifecycle                                 *)
(* ===================================================================== *)

Module Lifecycle.

Import Driver GoPath.
Local Open Scope driver_scope.

Definition nl : string := String "010"%char EmptyString.

Definition fsErrorValue (e : FsError) : error :=
  match e with
  | ErrNotExist => "no such file or directory"
  | ErrOther e => e
  end.

Definition atoiError (s : string) : error := "strconv.Atoi: parsing " +:+ s.

Definition set_ContainerId (is_ : InstanceState) (cid : string) : InstanceState :=
  {| is_Index := is_Index is_; is_ContainerId := cid;
     is_LocalVars := is_LocalVars is_; is_Error := is_Error is_;
     is_Stopped := is_Stopped is_; is_cidfile := is_cidfile is_ |}.

Definition set_cidfile (is_ : InstanceState) (f : string) : InstanceState :=
  {| is_Index := is_Index is_; is_ContainerId := is_ContainerId is_;
     is_LocalVars := is_LocalVars is_; is_Error := is_Error is_;
     is_Stopped := is_Stopped is_; is_cidfile := f |}.

Definition is_UpdateVar (is_ : InstanceState) (name value : string) : InstanceState :=
  {| is_Index := is_Index is_; is_ContainerId := is_ContainerId is_;
     is_LocalVars := localVars_UpdateVar (is_LocalVars is_) name value;
     is_Error := is_Error is_;
     is_Stopped := is_Stopped is_; is_cidfile := is_cidfile is_ |}.

(** The end of an instance task: [is.Error = err; is.Stopped = true]. *)
Definition finishInstance (is_ : InstanceState) (err : option error) : InstanceState :=
  {| is_Index := is_Index is_; is_ContainerId := is_ContainerId is_;
     is_LocalVars := is_LocalVars is_; is_Error := err;
     is_Stopped := true; is_cidfile := is_cidfile is_ |}.

Section WithHost.

Variable host : Host.

(** [cs.vars.QueryVar(name, context)], as answered when it is called. *)
Variable QueryVar : VarContext -> string -> QueryResult.

(** [InstanceState.stop] *)
Definition InstanceState_stop (is_ : InstanceState) : M unit :=
  if negb (String.eqb (is_ContainerId is_) "") then
    call Stop host (is_ContainerId is_) ; ret tt
  else ret tt.

(** [InstanceState.remove] *)
Definition InstanceState_remove (is_ : InstanceState) : M InstanceState :=
  if negb (String.eqb (is_ContainerId is_) "") then
    call RmForce host (is_ContainerId is_) ;
    do is_ <- (if negb (String.eqb (is_cidfile is_) "") then
                 do r <- osRemove host (is_cidfile is_) ;
                 ret (match r with
                      | None => set_cidfile is_ ""
                      | Some _ => is_
                      end)
               else ret is_) ;
    ret (set_ContainerId is_ "")
  else ret is_.

(** The loop of [InstanceState.runCommands]. *)
Fixpoint runCommandList (ctx : VarContext) (shell cid remoteWrapper localScript : string)
    (commands : list string) : M (option error) :=
  match commands with
  | [] => ret None
  | command :: rest =>
      let command := Subst.Substitute (QueryVar ctx) command in
      let command := Trim command " " in
      if String.eqb command "" then
        runCommandList ctx shell cid remoteWrapper localScript rest
      else
        do rmerr <- osRemove host (localScript +:+ ".exit") ;
        match rmerr with
        | Some (ErrOther e) => ret (Some e)
        | _ =>
            do werr <- writeFile host localScript ("#!" +:+ shell +:+ nl +:+ command) ;
            match werr with
            | Some e => ret (Some e)
            | None =>
                do xerr <- Exec host cid [remoteWrapper] ;
                match xerr with
                | Some e => ret (Some e)
                | None =>
                    do (result, rerr) <- readFile host (localScript +:+ ".exit") ;
                    match rerr with
                    | Some e => ret (Some (fsErrorValue e))
                    | None =>
                        match Atoi (Trim result blanks) with
                        | None => ret (Some (atoiError (Trim result blanks)))
                        | Some exitCode =>
                            if (exitCode =? 0)%Z then
                              runCommandList ctx shell cid remoteWrapper localScript rest
                            else
                              ret (Some ("Exit " +:+ pretty exitCode +:+ ": " +:+ command))
                        end
                    end
                end
            end
        end
  end.

(** [InstanceState.runCommands] *)
Definition runCommands (ctx : VarContext) (ns : NodeState) (is_ : InstanceState)
    (name remoteWrapper localScript : string) : M (option error) :=
  match NodeCommands (ns_Node ns) !! name with
  | None => ret None
  | Some commands =>
      let shell := if String.eqb (Shell commands) "" then "/bin/bash"
                   else Shell commands in
      runCommandList ctx shell (is_ContainerId is_) remoteWrapper localScript
        (CommandList commands)
  end.

(** The first step of [InstanceState.run]: with the [Run] flag, the
    run directory and the wrapper script in it. *)
Definition writeWrapper (runCmds : bool) (runDir remoteScript : string)
    : M (option error) :=
  if runCmds then
    do e <- mkdirAll host runDir ;
    match e with
    | Some e => ret (Some e)
    | None =>
        writeFile host (Join [runDir; "run.sh"])
          ("#!/bin/sh" +:+ nl +:+ remoteScript +:+ nl +:+ "echo $?>"
             +:+ remoteScript +:+ ".exit" +:+ nl
             +:+ "chmod 0777 " +:+ remoteScript +:+ ".exit")
    end
  else ret None.

(** The names [InstanceState.run] derives for instance [index] of
    node [ns]. *)
Definition instanceName (ns : NodeState) (index : nat) : string :=
  Name (ns_Node ns) +:+ "." +:+ pretty index.

Definition runDirOf (cs : CloudState) (ns : NodeState) (index : nat) : string :=
  Join [cs_stateDir cs; instanceName ns index +:+ ".run"].

Definition remoteScriptOf (cs : CloudState) (ns : NodeState) (index : nat) : string :=
  Join [cs_workspace cs; instanceName ns index +:+ ".run"; "cmd.sh"].

Definition cidfileOf (cs : CloudState) (ns : NodeState) (index : nat) : string :=
  Join [cs_stateDir cs; instanceName ns index +:+ ".cid"].

(** [InstanceState.run]; [n] is the position of [ns] in [cs.Nodes]. *)
Definition InstanceState_run (cs : CloudState) (n : nat) (ns : NodeState)
    (is_ : InstanceState) (index : nat) : M (InstanceState * option error) :=
  let name := instanceName ns index in
  let runDir := runDirOf cs ns index in
  let localScript := Join [runDir; "cmd.sh"] in
  let remoteScript := remoteScriptOf cs ns index in
  let remoteWrapper := Join [cs_workspace cs; name +:+ ".run"; "run.sh"] in
  let is_ := set_cidfile is_ (cidfileOf cs ns index) in
  let runCmds := hasFlag (cs_RunFlags cs) Flag.Run in
  do prep <- writeWrapper runCmds runDir remoteScript ;
  match prep with
  | Some e => ret (is_, Some e)
  | None =>
      do (cid, cerr) <- Create host (is_cidfile is_) (ns_DockerArgs ns) ;
      let is_ := set_ContainerId is_ cid in
      match cerr with
      | Some e => ret (is_, Some e)
      | None =>
          do serr <- Start host (is_ContainerId is_)
                       (negb (hasFlag (cs_RunFlags cs) Flag.Detach)) ;
          match serr with
          | Some e =>
              do is_ <- InstanceState_remove is_ ;
              ret (is_, Some e)
          | None =>
              do (ip, e1) <- Inspect host (is_ContainerId is_)
                               "{{.NetworkSettings.IPAddress}}" ;
              let is_ := if isNil e1 then is_UpdateVar is_ "ip" ip else is_ in
              do (mac, e2) <- Inspect host (is_ContainerId is_)
                                "{{.NetworkSettings.MacAddress}}" ;
              let is_ := if isNil e2 then is_UpdateVar is_ "mac" mac else is_ in
              let ctx := {| Cloud := cs; ctx_Node := Some n;
                            ctx_Instance := Some (n, index) |} in
              do err <- (if runCmds
                         then runCommands ctx ns is_ "run" remoteWrapper localScript
                         else ret None) ;
              if hasFlag (cs_RunFlags cs) Flag.Stop then
                call InstanceState_stop is_ ;
                if hasFlag (cs_RunFlags cs) Flag.Remove then
                  do is_ <- InstanceState_remove is_ ;
                  ret (is_, err)
                else ret (is_, err)
              else ret (is_, err)
          end
      end
  end.

End WithHost.

End Lifecycle.

(* ===================================================================== *)
(** * cloudenv.go: the node lifecycle                                     *)
(* ===================================================================== *)

Module NodeRun.

Import GoPath.

(** The body of the loop over [ns.Node.Docker.Volumes], after
    substitution: the bind-mount argument for one volume mapping. *)
Definition volumeArg (dataDir volMap : string) : string :=
  let pos := Index volMap ":" in
  if (0 <? pos)%Z then
    let src := slice volMap 0 (Z.to_nat pos) in
    let dst := sliceFrom volMap (Z.to_nat pos + 1) in
    let src := if negb (IsAbs src) then Clean (Join [dataDir; src]) else src in
    src +:+ ":" +:+ dst
  else volMap.

Definition set_Instances (ns : NodeState) (iss : list InstanceState) : NodeState :=
  {| ns_Node := ns_Node ns; ns_Image := ns_Image ns;
     ns_LocalVars := ns_LocalVars ns; ns_DockerArgs := ns_DockerArgs ns;
     ns_Instances := iss; ns_Error := ns_Error ns; ns_Stopped := ns_Stopped ns |}.

Definition set_DockerArgs (ns : NodeState) (args : list string) : NodeState :=
  {| ns_Node := ns_Node ns; ns_Image := ns_Image ns;
     ns_LocalVars := ns_LocalVars ns; ns_DockerArgs := args;
     ns_Instances := ns_Instances ns; ns_Error := ns_Error ns;
     ns_Stopped := ns_Stopped ns |}.

Definition set_Image (ns : NodeState) (image : string) : NodeState :=
  {| ns_Node := ns_Node ns; ns_Image := image;
     ns_LocalVars := ns_LocalVars ns; ns_DockerArgs := ns_DockerArgs ns;
     ns_Instances := ns_Instances ns; ns_Error := ns_Error ns;
     ns_Stopped := ns_Stopped ns |}.

Definition ns_UpdateVar (ns : NodeState) (name value : string) : NodeState :=
  {| ns_Node := ns_Node ns; ns_Image := ns_Image ns;
     ns_LocalVars := localVars_UpdateVar (ns_LocalVars ns) name value;
     ns_DockerArgs := ns_DockerArgs ns;
     ns_Instances := ns_Instances ns; ns_Error := ns_Error ns;
     ns_Stopped := ns_Stopped ns |}.

(** The end of a node task: [ns.Error = err; ns.Stopped = true]. *)
Definition finishNode (ns : NodeState) (err : option error) : NodeState :=
  {| ns_Node := ns_Node ns; ns_Image := ns_Image ns;
     ns_LocalVars := ns_LocalVars ns; ns_DockerArgs := ns_DockerArgs ns;
     ns_Instances := ns_Instances ns; ns_Error := err; ns_Stopped := true |}.

(** The states [CloudEnv.Run] allocates before any task starts. *)
Definition newInstanceState (j : nat) : InstanceState :=
  {| is_Index := j; is_ContainerId := ""; is_LocalVars := LocalVarsRepo;
     is_Error := None; is_Stopped := false; is_cidfile := "" |}.

Definition newNodeState (node : Node) : NodeState :=
  {| ns_Node := node; ns_Image := ""; ns_LocalVars := LocalVarsRepo;
     ns_DockerArgs := [];
     ns_Instances := map newInstanceState (seq 0 (Instances node));
     ns_Error := None; ns_Stopped := false |}.

Section WithTasks.

(** [cs.vars.QueryVar(name, context)], as answered when it is called. *)
Variable QueryVar : VarContext -> string -> QueryResult.

(** [os.MkdirAll(dir, 0777)], with an already existing directory
    reported as no error. *)
Variable mkdirAll : string -> option error.

(** What [cs.LoadImage] returns to this node. *)
Variable LoadImage : string -> option error.

(** The outcome of [is.run(ns, index)] for the instance task
    [index]: the instance state it leaves and the error it returns. *)
Variable instanceRun : NodeState -> nat -> InstanceState -> InstanceState * option error.

(** The instance task spawned by [NodeState.run]. *)
Definition instanceTask (ns : NodeState) (index : nat) (is_ : InstanceState)
    : InstanceState :=
  let '(is', err) := instanceRun ns index is_ in
  Lifecycle.finishInstance is' err.

(** [NodeState.prepareNode] *)
Definition prepareNode (ns : NodeState) : option error := None.

(** The outcome of [NodeState.run]: the node state, the returned
    error, and the indices of the instance tasks it spawned. *)
Record RunResult := {
  rr_state : NodeState;
  rr_err : option error;
  rr_spawned : list nat
}.

(** [NodeState.run]; [n] is the position of [ns] in [cs.Nodes]. *)
Definition NodeState_run (cs : CloudState) (n : nat) (ns : NodeState) : RunResult :=
  match mkdirAll (cs_stateDir cs) with
  | Some e => {| rr_state := ns; rr_err := Some e; rr_spawned := [] |}
  | None =>
      let varCtx := {| Cloud := cs; ctx_Node := Some n; ctx_Instance := None |} in
      let subst := Subst.Substitute (QueryVar varCtx) in
      let ns := ns_UpdateVar ns "template" (Name (ns_Node ns)) in
      let ns := ns_UpdateVar ns "instances" (pretty (length (ns_Instances ns))) in
      let ns := set_Image ns (subst (Image (ns_Node ns))) in
      let ns := ns_UpdateVar ns "image" (ns_Image ns) in
      let ns := set_DockerArgs ns
                  ["-v"; cs_DataDir cs +:+ ":" +:+ workspace; "-w"; workspace] in
      match LoadImage (Image (ns_Node ns)) with
      | Some e => {| rr_state := ns; rr_err := Some e; rr_spawned := [] |}
      | None =>
          let docker := Docker (ns_Node ns) in
          let args := ns_DockerArgs ns in
          let args := if Privileged docker then args ++ ["--privileged"] else args in
          let args := if negb (String.eqb (Entrypoint docker) "")
                      then (args ++ ["--entrypoint"]) ++ [subst (Entrypoint docker)]
                      else args in
          let args := fold_left (fun a env => (a ++ ["-e"]) ++ [subst env])
                        (Env docker) args in
          let args := fold_left
                        (fun a vol => (a ++ ["-v"]) ++ [volumeArg (cs_DataDir cs) (subst vol)])
                        (Volumes docker) args in
          let ns := set_DockerArgs ns args in
          match (if hasFlag (cs_RunFlags cs) Flag.Prepare
                 then prepareNode ns else None) with
          | Some e => {| rr_state := ns; rr_err := Some e; rr_spawned := [] |}
          | None =>
              let args := ns_DockerArgs ns ++ [ns_Image ns] in
              let args := fold_left (fun a cmd => a ++ [cmd]) (Cmd docker) args in
              let ns := set_DockerArgs ns args in
              let ns := set_Instances ns (imap (instanceTask ns) (ns_Instances ns)) in
              {| rr_state := ns; rr_err := None;
                 rr_spawned := seq 0 (length (ns_Instances ns)) |}
          end
      end
  end.

(** The node task spawned by [CloudEnv.Run]. *)
Definition nodeTask (cs : CloudState) (n : nat) (ns : NodeState) : RunResult :=
  let r := NodeState_run cs n ns in
  {| rr_state := finishNode (rr_state r) (rr_err r);
     rr_err := rr_err r; rr_spawned := rr_spawned r |}.

End WithTasks.

End NodeRun.

(* ===================================================================== *)
(** * cloudenv.go: the image-load cache under interleaving                *)
(* ===================================================================== *)

Module ImageCache.

Record ImageLoader := {
  il_Name : string;
  il_Error : option error;
  il_complete : bool
}.

(** Where a caller of [LoadImage] stands. *)
Inductive Pc :=
| Enter                    (* before [cs.Lock()] and the lookup in [cs.Images] *)
| Load                     (* entry inserted and lock released; before [loader.Load()] *)
| Store                    (* [Load] done; before [atomic.StoreInt32(&loader.complete, 1)] *)
| Wait                     (* entry found; in the loop awaiting [complete] *)
| Leave                    (* past the loop or the store; before reading [loader.Error] *)
| Return (r : option error).  (* returned [loader.Error] *)

Record Caller := {
  c_name : string;
  c_pc : Pc
}.

Record State := {
  Images : gmap string ImageLoader;
  callers : list Caller;
  pulls : list string
}.

Definition at_ (name : string) (pc : Pc) : Caller :=
  {| c_name := name; c_pc := pc |}.

Definition setError (l : ImageLoader) (e : option error) : ImageLoader :=
  {| il_Name := il_Name l; il_Error := e; il_complete := il_complete l |}.

Definition setComplete (l : ImageLoader) : ImageLoader :=
  {| il_Name := il_Name l; il_Error := il_Error l; il_complete := true |}.

Section WithDriver.

(** The outcome of the driver's pull of an image, which may depend on
    the pulls made before. *)
Variable Pull : list string -> string -> option error.

(** One atomic step of caller [t].  The lookup and the insertion
    happen under the activation lock and form one step; the pull, the
    store of [complete] and the read of [loader.Error] are steps of
    their own.  A caller whose wait is not over, or who has returned,
    stays where it is. *)
Definition step (t : nat) (s : State) : State :=
  match callers s !! t with
  | None => s
  | Some c =>
      let name := c_name c in
      let goto pc := <[t := at_ name pc]> (callers s) in
      match c_pc c with
      | Enter =>
          match Images s !! name with
          | Some _ =>
              {| Images := Images s; callers := goto Wait; pulls := pulls s |}
          | None =>
              {| Images := <[name := {| il_Name := name; il_Error := None;
                                        il_complete := false |}]> (Images s);
                 callers := goto Load; pulls := pulls s |}
          end
      | Load =>
          {| Images := alter (fun l => setError l (Pull (pulls s) name)) name (Images s);
             callers := goto Store;
             pulls := pulls s ++ [name] |}
      | Store =>
          {| Images := alter setComplete name (Images s);
             callers := goto Leave; pulls := pulls s |}
      | Wait =>
          match Images s !! name with
          | Some l =>
              if il_complete l
              then {| Images := Images s; callers := goto Leave; pulls := pulls s |}
              else s
          | None => s
          end
      | Leave =>
          match Images s !! name with
          | Some l =>
              {| Images := Images s; callers := goto (Return (il_Error l));
                 pulls := pulls s |}
          | None => s
          end
      | Return _ => s
      end
  end.

(** The activation starts with an empty cache; caller [t] asks for
    the image [names !! t]. *)
Definition init (names : list string) : State :=
  {| Images := ∅; callers := map (fun n => at_ n Enter) names; pulls := [] |}.

(** A schedule names the caller that moves next. *)
Definition run (sched : list nat) (s : State) : State :=
  fold_left (fun s t => step t s) sched s.

End WithDriver.

(** How many times the driver pulled [name]. *)
Definition pullCount (name : string) (s : State) : nat :=
  length (filter (fun n => n = name) (pulls s)).


(** Counting callers. *)
Fixpoint countIf (p : Caller -> bool) (l : list Caller) : nat :=
  match l with
  | [] => 0
  | c :: rest => Nat.b2n (p c) + countIf p rest
  end.

Definition isLoad (pc : Pc) : bool := match pc with Load => true | _ => false end.
Definition isStore (pc : Pc) : bool := match pc with Store => true | _ => false end.

Definition atPc (name : string) (k : Pc -> bool) (c : Caller) : bool :=
  String.eqb (c_name c) name && k (c_pc c).

Definition nLoad (name : string) (s : State) : nat :=
  countIf (atPc name isLoad) (callers s).

Definition nStore (name : string) (s : State) : nat :=
  countIf (atPc name isStore) (callers s).

Definition nDone (name : string) (s : State) : nat :=
  match Images s !! name with
  | Some l => Nat.b2n (il_complete l)
  | None => 0
  end.

Definition nEntry (name : string) (s : State) : nat :=
  match Images s !! name with Some _ => 1 | None => 0 end.

(** What a caller's position says about the entry of its image. *)
Definition consistent (images : gmap string ImageLoader) (c : Caller) : Prop :=
  match c_pc c with
  | Enter | Load | Store | Wait => True
  | Leave => exists l, images !! c_name c = Some l /\ il_complete l = true
  | Return r =>
      exists l, images !! c_name c = Some l /\ il_complete l = true
                /\ r = il_Error l
  end.

(** The invariant of the cache: for every image, the entry is owned by
    one caller until it is complete, and the image has been pulled once
    the owner is past [Load]. *)
Definition Inv (s : State) : Prop :=
  Forall (consistent (Images s)) (callers s)
  /\ forall name,
       nLoad name s + nStore name s + nDone name s = nEntry name s
       /\ pullCount name s = nStore name s + nDone name s.




End ImageCache.

(* ===================================================================== *)
(** * A sample activation                                                 *)
(* ===================================================================== *)

Module Sample.

Definition web : Node :=
  {| Name := "web"; Instances := 2; Image := "nginx";
     Docker := {| Entrypoint := ""; Cmd := []; Env := []; Privileged := false;
                  Volumes := ["data:/app/data"; "/abs/path:/app/data"] |};
     NodeCommands := ∅ |}.

Definition db : Node :=
  {| Name := "db"; Instances := 1; Image := "postgres";
     Docker := {| Entrypoint := ""; Cmd := []; Env := []; Privileged := false;
                  Volumes := [] |};
     NodeCommands := ∅ |}.

Definition cloud (flags : N) : CloudState :=
  {| cs_DataDir := "/srv/cluster1"; cs_RunFlags := flags;
     cs_Nodes := [NodeRun.newNodeState web; NodeRun.newNodeState db];
     cs_stateDir := "/srv/cluster1/.cargo/demo";
     cs_workspace := "/.cargo.workspace/.cargo/demo" |}.

(** A variable scope in which nothing resolves. *)
Definition noVars (ctx : VarContext) (name : string) : QueryResult := notFound.

Definition mkdirOk (dir : string) : option error := None.

Definition loadOk (image : string) : option error := None.

Definition loadFails (image : string) : option error := Some "pull failed".

(** A registry from which no image can be pulled. *)
Definition pullFails (before : list string) (image : string) : option error :=
  Some "pull failed".

(** Instance 1 of every node fails, the others succeed. *)
Definition secondFails (ns : NodeState) (index : nat) (is_ : InstanceState)
    : InstanceState * option error :=
  (is_, if index =? 1 then Some "Exit 1: false" else None).

(** An engine on which every command succeeds, [create] answers the id
    [c1], and no container is ever reported as running. *)
Definition idle : Driver.Host :=
  {| Driver.engine := fun w args =>
       {| Driver.cr_out := if String.eqb (hd "" args) "create" then "c1" else "false";
          Driver.cr_err := None;
          Driver.cr_files := Driver.files w |};
     Driver.launch := fun _ _ => None;
     Driver.fsFault := fun _ _ => None |}.

(** An engine that reports every container as running and on which
    [create] fails. *)
Definition full : Driver.Host :=
  {| Driver.engine := fun w args =>
       {| Driver.cr_out := "true";
          Driver.cr_err := if String.eqb (hd "" args) "create"
                           then Some "no space left on device" else None;
          Driver.cr_files := Driver.files w |};
     Driver.launch := fun _ _ => None;
     Driver.fsFault := fun _ _ => None |}.

Definition world0 : Driver.World := {| Driver.files := ∅; Driver.log := [] |}.

(** A host on which an earlier activation left a marker file. *)
Definition marked : Driver.World :=
  {| Driver.files := {[ "/srv/cluster1/.cargo/demo/web.0.cid" := "old123" ]};
     Driver.log := [] |}.

(** Instance 0 of [web] asks; the flags do not matter to lookups. *)
Definition ctx : VarContext :=
  {| Cloud := cloud 0; ctx_Node := Some 0; ctx_Instance := Some (0, 0) |}.

Definition waiting : Xref.Observation :=
  {| Xref.obs_Stopped := false; Xref.obs_LocalVars := LocalVarsRepo |}.


End Sample.

(* ===================================================================== *)
(** * cloudenv.go: the activation as a whole                              *)
(* ===================================================================== *)

Module Activation.

(** [Cluster] of contracts.go and [CloudEnv] of cloudenv.go. *)
Record Cluster := {
  cl_Name : string;
  cl_Nodes : list Node
}.

Record CloudEnv := {
  ce_Cluster : Cluster;
  ce_DataDir : string;
  ce_Registry : string;
  ce_RunFlags : N
}.



(** The map of the global repository after the four [UpdateVar] calls of
    [CloudEnv.Run]. *)
Definition globalVars (ce : CloudEnv) : localVars :=
  let vs := LocalVarsRepo in
  let vs := localVars_UpdateVar vs "project" (cl_Name (ce_Cluster ce)) in
  let vs := localVars_UpdateVar vs "cluster" (cl_Name (ce_Cluster ce)) in
  let vs := localVars_UpdateVar vs "container" "docker" in
  localVars_UpdateVar vs "os" "linux".



End Activation.

(* ===================================================================== *)
(** * cloudenv.go: teardown                                               *)
(* ===================================================================== *)

Module Teardown.

Import Driver.
Local Open Scope driver_scope.

(** The inner loop of [CloudState.StopAndWait]. *)
Fixpoint stopInstances (host : Host) (iss : list InstanceState) : M unit :=
  match iss with
  | [] => ret tt
  | is_ :: rest =>
      call Lifecycle.InstanceState_stop host is_ ;
      stopInstances host rest
  end.

(** The outer loop of [CloudState.StopAndWait]. *)
Fixpoint stopNodes (host : Host) (nss : list NodeState) : M unit :=
  match nss with
  | [] => ret tt
  | ns :: rest =>
      call stopInstances host (ns_Instances ns) ;
      stopNodes host rest
  end.

(** [CloudState.StopAndWait]: every instance is stopped, then the wait
    group of the attached starts is awaited, which issues no command. *)
Definition StopAndWait (host : Host) (cs : CloudState) : M unit :=
  stopNodes host (cs_Nodes cs).

(** The container ids [StopAndWait] has to stop: those that are not
    empty, node by node, instance by instance. *)
Definition liveContainers (cs : CloudState) : list string :=
  filter (fun cid => cid <> "")
    (flat_map (fun ns => map is_ContainerId (ns_Instances ns)) (cs_Nodes cs)).

End Teardown.

(* ===================================================================== *)
(** * cluster.go: choosing a cluster                                      *)
(* ===================================================================== *)

Module Config.

Import Activation.

Record Clusters := {
  cs_Clusters : list Cluster;
  cs_Default : string
}.

(** The loop of [Clusters.ClusterByName]. *)
Fixpoint clusterByName (l : list Cluster) (name : string) : option Cluster :=
  match l with
  | [] => None
  | cluster :: rest =>
      if String.eqb (cl_Name cluster) name then Some cluster
      else clusterByName rest name
  end.

(** [Clusters.ClusterByName]; [nil] is [None]. *)
Definition ClusterByName (cs : Clusters) (name : string) : option Cluster :=
  clusterByName (cs_Clusters cs) name.

(** [Clusters.DefaultCluster] *)
Definition DefaultCluster (cs : Clusters) : option Cluster :=
  match cs_Clusters cs with
  | [] => None
  | first :: _ =>
      if String.eqb (cs_Default cs) "" then Some first
      else ClusterByName cs (cs_Default cs)
  end.

End Config.

(* ===================================================================== *)
(** * cargo.go: the run flags of the commands                             *)
(* ===================================================================== *)

Module Cli.

Definition setIf (opt : bool) (flag flags : N) : N :=
  if opt then N.lor flags flag else flags.

(** The flags [startCloud] (cargo up) hands to [Run]. *)
Definition startCloudFlags (optCreate optPrepare optDetach optRemove : bool) : N :=
  let flags := 0%N in
  let flags := setIf optCreate Flag.Create flags in
  let flags := setIf optPrepare Flag.Prepare flags in
  let flags := setIf optDetach Flag.Detach flags in
  setIf optRemove Flag.Remove flags.

(** The flags [runCloud] (cargo run) hands to [Run]. *)
Definition runCloudFlags (optCreate optDetach optHold optRemove : bool) : N :=
  let flags := N.lor 0%N (N.lor Flag.Prepare Flag.Run) in
  let flags := setIf optCreate Flag.Create flags in
  let flags := if optDetach then N.lor flags Flag.Detach
               else if negb optHold then N.lor flags Flag.Stop else flags in
  setIf optRemove Flag.Remove flags.

End Cli.

(* ===================================================================== *)
(** * Derived notions used to state properties                            *)
(* ===================================================================== *)

Module Derived.

(** A reference [node-index] that [queryInstance] follows to the
    instance [is_] at position [index] of the node at position [n]. *)
Definition locatesInstance (ctx : VarContext) (ref : string) (n index : nat)
    (is_ : InstanceState) : Prop :=
  (0 < LastIndex ref "-")%Z
  /\ Xref.findNode ctx (slice ref 0 (Z.to_nat (LastIndex ref "-"))) = Some n
  /\ Atoi (sliceFrom ref (Z.to_nat (LastIndex ref "-") + 1)) = Some (Z.of_nat index)
  /\ exists ns, cs_Nodes (Cloud ctx) !! n = Some ns
                /\ ns_Instances ns !! index = Some is_.

(** A reference that [queryNode] follows to the node state [ns] at
    position [n]. *)
Definition locatesNode (ctx : VarContext) (ref : string) (n : nat)
    (ns : NodeState) : Prop :=
  Xref.findNode ctx ref = Some n /\ cs_Nodes (Cloud ctx) !! n = Some ns.


(** A byte other than the percent sign. *)
Definition notPercent (c : ascii) : bool := negb (Ascii.eqb c "%"%char).

(** How often a command was run, and how long the driver slept, in a
    stretch of the log. *)
Fixpoint commandCount (args : list string) (events : list Driver.Event) : nat :=
  match events with
  | [] => 0
  | Driver.Command a :: rest =>
      (if bool_decide (a = args) then 1 else 0) + commandCount args rest
  | _ :: rest => commandCount args rest
  end.

Fixpoint sleepTotal (events : list Driver.Event) : nat :=
  match events with
  | [] => 0
  | Driver.Sleep ms :: rest => ms + sleepTotal rest
  | _ :: rest => sleepTotal rest
  end.

(** The longest the confirmation loop can sleep with [attempts] rounds
    left at loop counter [i], in milliseconds. *)
Fixpoint sleepBudget (attempts i : nat) : nat :=
  match attempts with
  | 0 => 0
  | S remaining => (i + 1) * 100 + sleepBudget remaining (S i)
  end.

(** The node state [NodeState.run] hands to its instance tasks once the
    image is loaded: variables published, image resolved, argument list
    complete. *)
Definition taskState (QueryVar : VarContext -> string -> QueryResult)
    (cs : CloudState) (n : nat) (ns : NodeState) : NodeState :=
  let subst := Subst.Substitute
    (QueryVar {| Cloud := cs; ctx_Node := Some n; ctx_Instance := None |}) in
  let docker := Docker (ns_Node ns) in
  let ns1 := NodeRun.ns_UpdateVar ns "template" (Name (ns_Node ns)) in
  let ns2 := NodeRun.ns_UpdateVar ns1 "instances" (pretty (length (ns_Instances ns))) in
  let ns3 := NodeRun.set_Image ns2 (subst (Image (ns_Node ns))) in
  let ns4 := NodeRun.ns_UpdateVar ns3 "image" (ns_Image ns3) in
  NodeRun.set_DockerArgs ns4
    (["-v"; cs_DataDir cs +:+ ":" +:+ workspace; "-w"; workspace]
     ++ (if Privileged docker then ["--privileged"] else [])
     ++ (if negb (String.eqb (Entrypoint docker) "")
         then ["--entrypoint"; subst (Entrypoint docker)] else [])
     ++ flat_map (fun env => ["-e"; subst env]) (Env docker)
     ++ flat_map (fun vol => ["-v"; NodeRun.volumeArg (cs_DataDir cs) (subst vol)])
          (Volumes docker)
     ++ [subst (Image (ns_Node ns))] ++ Cmd docker).

End Derived.

(* ===================================================================== *)
(** * A second sample activation                                          *)
(* ===================================================================== *)

Module Demo.

(** The node [db] once its instance has started and published its
    address. *)
Definition dbUp : NodeState :=
  {| ns_Node := Sample.db; ns_Image := "postgres";
     ns_LocalVars := localVars_UpdateVar LocalVarsRepo "instances" "1";
     ns_DockerArgs := [];
     ns_Instances :=
       [{| is_Index := 0; is_ContainerId := "c7";
           is_LocalVars := localVars_UpdateVar LocalVarsRepo "ip" "10.0.0.2";
           is_Error := None; is_Stopped := false;
           is_cidfile := "/srv/cluster1/.cargo/demo/db.0.cid" |}];
     ns_Error := None; ns_Stopped := false |}.

Definition cloud : CloudState :=
  {| cs_DataDir := "/srv/cluster1"; cs_RunFlags := 0;
     cs_Nodes := [NodeRun.newNodeState Sample.web; dbUp];
     cs_stateDir := "/srv/cluster1/.cargo/demo";
     cs_workspace := "/.cargo.workspace/.cargo/demo" |}.

(** Instance 0 of [web] asks. *)
Definition ctx : VarContext :=
  {| Cloud := cloud; ctx_Node := Some 0; ctx_Instance := Some (0, 0) |}.

(** The target seen running with its address published. *)
Definition published : Xref.Observation :=
  {| Xref.obs_Stopped := false;
     Xref.obs_LocalVars := localVars_UpdateVar LocalVarsRepo "ip" "10.0.0.2" |}.

(** An engine that knows none of the containers it is asked about. *)
Definition gone : Driver.Host :=
  {| Driver.engine := fun w args =>
       {| Driver.cr_out := "c2";
          Driver.cr_err := if String.eqb (hd "" args) "inspect"
                           then Some "No such container" else None;
          Driver.cr_files := Driver.files w |};
     Driver.launch := fun _ _ => None;
     Driver.fsFault := fun _ _ => None |}.

(** A host on which no file can be removed. *)
Definition readonly : Driver.Host :=
  {| Driver.engine := Driver.engine Sample.idle;
     Driver.launch := fun _ _ => None;
     Driver.fsFault := fun _ ev =>
       match ev with
       | Driver.RemoveFile _ => Some "read-only file system"
       | _ => None
       end |}.

(** An engine that reports every container as running. *)
Definition eager : Driver.Host :=
  {| Driver.engine := fun w args =>
       {| Driver.cr_out := "true"; Driver.cr_err := None;
          Driver.cr_files := Driver.files w |};
     Driver.launch := fun _ _ => None;
     Driver.fsFault := fun _ _ => None |}.

(** An engine on which every script run in a container of [web.0]
    exits with code 1: the wrapper leaves that code in the exit marker
    of the shared run directory. *)
Definition failing : Driver.Host :=
  {| Driver.engine := fun w args =>
       {| Driver.cr_out := "true"; Driver.cr_err := None;
          Driver.cr_files :=
            if String.eqb (hd "" args) "exec"
            then <[ "/srv/cluster1/.cargo/demo/web.0.run/cmd.sh.exit" :=
                      "1" +:+ Lifecycle.nl ]> (Driver.files w)
            else Driver.files w |};
     Driver.launch := fun _ _ => None;
     Driver.fsFault := fun _ _ => None |}.

End Demo.

(* ===================================================================== *)
(** * Properties                                                          *)
(* ===================================================================== *)

(** ** Strings *)

Lemma append_cons (c : ascii) (s t : string) :
  String c s +:+ t = String c (s +:+ t).
Proof. reflexivity. Qed.

Lemma append_nil_l (t : string) : "" +:+ t = t.
Proof. reflexivity. Qed.

Lemma substring_all (s : string) : String.substring 0 (String.length s) s = s.
Proof. induction s as [|c s IH]; simpl; [reflexivity | f_equal; exact IH]. Qed.

Lemma sliceFrom_0 (s : string) : sliceFrom s 0 = s.
Proof. unfold sliceFrom, len. rewrite Nat.sub_0_r. apply substring_all. Qed.

Lemma append_nil_r (s : string) : s +:+ "" = s.
Proof.
  induction s as [|c s IH]; [reflexivity|].
  rewrite append_cons. f_equal. exact IH.
Qed.

Lemma append_assoc (a b c : string) : (a +:+ b) +:+ c = a +:+ b +:+ c.
Proof.
  induction a as [|x a IH]; [reflexivity|].
  rewrite !append_cons. f_equal. exact IH.
Qed.

Lemma length_append (a b : string) :
  String.length (a +:+ b) = String.length a + String.length b.
Proof.
  induction a as [|x a IH]; [reflexivity|].
  rewrite append_cons. simpl. f_equal. exact IH.
Qed.

Lemma IndexFrom_ge (c : ascii) (s : string) (j : nat) :
  (IndexFrom c s j = -1 \/ Z.of_nat j <= IndexFrom c s j)%Z.
Proof.
  revert j. induction s as [|a s IH]; intros j; simpl; [now left|].
  destruct (Ascii.eqb a c); [right; lia|].
  destruct (IH (S j)) as [->|Hle]; [now left | right; lia].
Qed.

(** The first occurrence of a byte splits the string around it. *)
Lemma IndexFrom_split (c : ascii) (s : string) (k p : nat) :
  IndexFrom c s k = Z.of_nat (k + p) ->
  s = String.substring 0 p s
        +:+ String c (String.substring (p + 1) (String.length s - (p + 1)) s).
Proof.
  revert k p. induction s as [|a s IH]; intros k p H; simpl in H.
  - lia.
  - destruct (Ascii.eqb_spec a c) as [->|Hne].
    + assert (p = 0) by lia. subst p. simpl.
      rewrite Nat.sub_0_r, substring_all. reflexivity.
    + destruct p as [|p].
      * exfalso. destruct (IndexFrom_ge c s (S k)) as [E|E]; lia.
      * simpl. rewrite append_cons. f_equal. apply (IH (S k) p).
        rewrite H. f_equal. lia.
Qed.

Lemma Index_split (s : string) (c : ascii) (p : nat) :
  Index s c = Z.of_nat p ->
  slice s 0 p +:+ String c (sliceFrom s (p + 1)) = s.
Proof.
  intros H. unfold slice, sliceFrom, len. rewrite Nat.sub_0_r.
  symmetry. apply (IndexFrom_split c s 0 p). exact H.
Qed.

(** ** Error aggregation *)

Lemma instancesAnyError_iff (iss : list InstanceState) :
  instancesAnyError iss = true <-> exists i, i ∈ iss /\ is_Error i <> None.
Proof.
  induction iss as [|i iss IH]; simpl.
  - split; [discriminate | intros (i & Hin & _); inversion Hin].
  - destruct (is_Error i) as [e|] eqn:E; simpl.
    + split; [intros _ | reflexivity].
      exists i. split; [left | congruence].
    + rewrite IH. split.
      * intros (j & Hin & Hj). exists j. split; [now right | exact Hj].
      * intros (j & Hin & Hj). apply elem_of_cons in Hin as [->|Hin].
        -- congruence.
        -- exists j. split; assumption.
Qed.

(** C8. [AnyError()] is true exactly when some node of the activation has
    a non-nil error or some instance of some node has a non-nil error. *)
Theorem AnyError_iff (cs : CloudState) :
  CloudState_AnyError cs = true <->
  exists ns, ns ∈ cs_Nodes cs /\
    (ns_Error ns <> None \/
     exists is_, is_ ∈ ns_Instances ns /\ is_Error is_ <> None).
Proof.
  unfold CloudState_AnyError.
  induction (cs_Nodes cs) as [|ns nss IH]; simpl.
  - split; [discriminate | intros (ns & Hin & _); inversion Hin].
  - destruct (negb (isNil (ns_Error ns)) || NodeState_AnyError ns) eqn:E.
    + split; [intros _ | reflexivity].
      exists ns. split; [left|].
      apply orb_true_iff in E as [E|E].
      * left. destruct (ns_Error ns); [discriminate | discriminate E].
      * right. apply instancesAnyError_iff. exact E.
    + apply orb_false_iff in E as [E1 E2].
      rewrite IH. split.
      * intros (m & Hin & Hm). exists m. split; [now right | exact Hm].
      * intros (m & Hin & Hm). apply elem_of_cons in Hin as [->|Hin].
        -- exfalso. destruct Hm as [Hm|Hm].
           ++ destruct (ns_Error ns); [discriminate E1 | congruence].
           ++ apply instancesAnyError_iff in Hm.
              unfold NodeState_AnyError in E2. congruence.
        -- exists m. split; assumption.
Qed.

(** ** Macro substitution *)

Lemma nameRun_split (rest : string) :
  Subst.byteAt rest (Subst.nameRun rest) = Some ")"%char ->
  exists name post,
    rest = name +:+ String ")"%char post
    /\ String.length name = Subst.nameRun rest
    /\ Subst.allBytes Subst.nameChar name = true.
Proof.
  unfold Subst.byteAt.
  induction rest as [|c r IH]; simpl; [discriminate|].
  destruct (Subst.nameChar c) eqn:Hc; simpl.
  - intros H. destruct (IH H) as (name & post & -> & Hlen & Hall).
    exists (String c name), post. rewrite append_cons. simpl.
    rewrite Hc, Hall, Hlen. auto.
  - intros [= ->]. exists "", r. auto.
Qed.

Lemma varRegExp_sound (s : string) (n : nat) :
  Subst.varRegExp s = Some n ->
  exists name post,
    s = "%(" +:+ name +:+ ")" +:+ post
    /\ name <> "" /\ Subst.allBytes Subst.nameChar name = true
    /\ n = String.length name + 3.
Proof.
  unfold Subst.varRegExp.
  destruct s as [|a [|b rest]]; try discriminate.
  - destruct a as [[] [] [] [] [] [] [] []]; discriminate.
  - destruct (Ascii.eqb_spec a "%"%char) as [->|Ha];
      [|destruct a as [[] [] [] [] [] [] [] []]; try discriminate; congruence].
    destruct (Ascii.eqb_spec b "("%char) as [->|Hb];
      [|destruct b as [[] [] [] [] [] [] [] []]; try discriminate; congruence].
    destruct (Subst.byteAt rest (Subst.nameRun rest)) as [c|] eqn:Hget;
      [|discriminate].
    destruct (Ascii.eqb_spec c ")"%char) as [->|Hc];
      [|destruct c as [[] [] [] [] [] [] [] []]; try discriminate; congruence].
    destruct (0 <? Subst.nameRun rest) eqn:Hpos; [|discriminate].
    intros [= <-]. apply Nat.ltb_lt in Hpos.
    destruct (nameRun_split rest Hget) as (name & post & -> & Hlen & Hall).
    exists name, post. repeat split.
    + rewrite <- Hlen in Hpos. destruct name; [simpl in Hpos; lia | discriminate].
    + exact Hall.
    + lia.
Qed.

Lemma nameChar_notParen (name : string) :
  Subst.allBytes Subst.nameChar name = true ->
  Subst.allBytes Subst.notParen name = true.
Proof.
  induction name as [|c name IH]; simpl; [reflexivity|].
  intros H. apply andb_true_iff in H as [Hc Hrest].
  rewrite (IH Hrest), andb_true_r.
  unfold Subst.nameChar in Hc. unfold Subst.notParen.
  destruct (Ascii.eqb c "("); [discriminate|].
  destruct (Ascii.eqb c ")"); [discriminate|]. reflexivity.
Qed.

Lemma containsReference_cons (c : ascii) (s : string) :
  Subst.containsReference s -> Subst.containsReference (String c s).
Proof.
  intros (pre & name & post & -> & Hne & Hall).
  exists (String c pre), name, post. rewrite append_cons. auto.
Qed.

Lemma scan_cons (c : ascii) (s : string) (pos skip : nat) :
  Subst.scan (String c s) pos skip =
  match skip with
  | S k => Subst.scan s (S pos) k
  | O =>
      match Subst.varRegExp (String c s) with
      | Some n => (pos, pos + n) :: Subst.scan s (S pos) (n - 1)
      | None => Subst.scan s (S pos) 0
      end
  end.
Proof. reflexivity. Qed.

(** Every match the scanner reports is a reference of the text. *)
Lemma scan_sound (s : string) (pos skip : nat) :
  Subst.scan s pos skip <> [] -> Subst.containsReference s.
Proof.
  revert pos skip. induction s as [|c s IH]; intros pos skip.
  - simpl. congruence.
  - rewrite scan_cons. destruct skip as [|k].
    + destruct (Subst.varRegExp (String c s)) as [n|] eqn:Hm.
      * intros _. destruct (varRegExp_sound _ _ Hm) as (name & post & E & Hne & Hall & _).
        exists "", name, post. rewrite append_nil_l.
        repeat split; [exact E | exact Hne | now apply nameChar_notParen].
      * intros H. apply containsReference_cons. eapply IH. exact H.
    + intros H. apply containsReference_cons. eapply IH. exact H.
Qed.

Lemma Substitute_no_match (QueryVar : string -> QueryResult) (text : string) :
  Subst.FindAllStringIndex text = [] -> Subst.Substitute QueryVar text = text.
Proof.
  intros H. unfold Subst.Substitute. rewrite H. simpl.
  destruct (0 <? len text) eqn:E.
  - rewrite append_nil_l. apply sliceFrom_0.
  - apply Nat.ltb_ge in E. unfold len in E.
    destruct text; [reflexivity | simpl in E; lia].
Qed.

(** A text without a percent sign holds no reference. *)
Lemma no_percent_no_reference (text : string) :
  Subst.allBytes (fun c => negb (Ascii.eqb c "%"%char)) text = true ->
  ~ Subst.containsReference text.
Proof.
  intros Hall (pre & name & post & -> & _).
  induction pre as [|c pre IH].
  - rewrite append_nil_l in Hall. discriminate Hall.
  - rewrite append_cons in Hall. simpl in Hall.
    apply andb_true_iff in Hall as [_ Hall]. exact (IH Hall).
Qed.

(** C10. On a text that contains no macro-delimited reference,
    [Substitute] is the identity, whatever the variable scope answers. *)
Theorem Substitute_identity_without_reference
    (QueryVar : string -> QueryResult) (text : string) :
  ~ Subst.containsReference text -> Subst.Substitute QueryVar text = text.
Proof.
  intros Hno. apply Substitute_no_match.
  destruct (Subst.FindAllStringIndex text) as [|m ms] eqn:E; [reflexivity|].
  exfalso. apply Hno. apply (scan_sound text 0 0).
  unfold Subst.FindAllStringIndex in E. rewrite E. discriminate.
Qed.

Lemma Substitute_identity_without_reference_witness :
  Subst.Substitute (fun _ => ("value", true)) "echo (hello) > out.txt"
  = "echo (hello) > out.txt".
Proof.
  apply Substitute_identity_without_reference.
  apply no_percent_no_reference. reflexivity.
Defined.

(** C3. Text substitution does not leave the surrounding text intact: the
    loop resumes at [end + 1] although [end] is already the position
    after the reference, so the byte that follows a reference is lost.
    In ["a%(x)bc"] the [b] disappears, whether [x] resolves or not, where
    the intended result keeps it. *)
Theorem Substitute_loses_byte_after_reference :
  let unresolved := fun _ : string => notFound in
  let resolved := fun n : string =>
    if String.eqb n "x" then ("V", true) else notFound in
  Subst.FindAllStringIndex "a%(x)bc" = [(1, 5)]
  /\ Subst.Substitute unresolved "a%(x)bc" = "ac"
  /\ Subst.Substitute resolved "a%(x)bc" = "aVc"
  /\ Subst.intended unresolved "a%(x)bc" 0 = "abc"
  /\ Subst.intended resolved "a%(x)bc" 0 = "aVbc".
Proof. vm_compute. repeat split. Qed.

(** ** Volume mappings *)

Lemma fold_left_pairs {A} (f g : A -> string) (l : list A) (init : list string) :
  fold_left (fun a x => (a ++ [f x]) ++ [g x]) l init
  = init ++ flat_map (fun x => [f x; g x]) l.
Proof.
  revert init. induction l as [|x l IH]; intros init; simpl.
  - now rewrite app_nil_r.
  - rewrite IH. rewrite <- !app_assoc. reflexivity.
Qed.

Lemma fold_left_snoc {A} (l : list A) (init : list A) :
  fold_left (fun a x => a ++ [x]) l init = init ++ l.
Proof.
  revert init. induction l as [|x l IH]; intros init; simpl.
  - now rewrite app_nil_r.
  - rewrite IH. rewrite <- app_assoc. reflexivity.
Qed.

(** What the loop body makes of one substituted mapping [src:dst]. *)
Lemma volumeArg_spec (dataDir volMap : string) (pos : nat) :
  Index volMap ":" = Z.of_nat pos -> 0 < pos ->
  NodeRun.volumeArg dataDir volMap =
    if GoPath.IsAbs (slice volMap 0 pos) then volMap
    else GoPath.Clean (GoPath.Join [dataDir; slice volMap 0 pos])
           +:+ ":" +:+ sliceFrom volMap (pos + 1).
Proof.
  intros H Hpos. unfold NodeRun.volumeArg. rewrite H.
  replace (0 <? Z.of_nat pos)%Z with true by (symmetry; apply Z.ltb_lt; lia).
  rewrite Nat2Z.id.
  destruct (GoPath.IsAbs (slice volMap 0 pos)); simpl; [|reflexivity].
  apply (Index_split volMap ":" pos H).
Qed.

Section DockerArgs.

Variable QueryVar : VarContext -> string -> QueryResult.
Variable mkdirAll : string -> option error.
Variable LoadImage : string -> option error.
Variable instanceRun : NodeState -> nat -> InstanceState -> InstanceState * option error.

Let run := NodeRun.NodeState_run QueryVar mkdirAll LoadImage instanceRun.

(** The argument list a node hands to its instances. *)
Lemma DockerArgs_built (cs : CloudState) (n : nat) (ns : NodeState) :
  mkdirAll (cs_stateDir cs) = None ->
  LoadImage (Image (ns_Node ns)) = None ->
  let subst := Subst.Substitute
    (QueryVar {| Cloud := cs; ctx_Node := Some n; ctx_Instance := None |}) in
  let docker := Docker (ns_Node ns) in
  ns_DockerArgs (NodeRun.rr_state (run cs n ns)) =
    ["-v"; cs_DataDir cs +:+ ":" +:+ workspace; "-w"; workspace]
    ++ (if Privileged docker then ["--privileged"] else [])
    ++ (if negb (String.eqb (Entrypoint docker) "")
        then ["--entrypoint"; subst (Entrypoint docker)] else [])
    ++ flat_map (fun env => ["-e"; subst env]) (Env docker)
    ++ flat_map (fun vol => ["-v"; NodeRun.volumeArg (cs_DataDir cs) (subst vol)])
         (Volumes docker)
    ++ [subst (Image (ns_Node ns))] ++ Cmd docker.
Proof.
  intros Hmk Hload subst docker.
  unfold run, NodeRun.NodeState_run. rewrite Hmk. simpl. rewrite Hload.
  unfold NodeRun.prepareNode.
  destruct (hasFlag (cs_RunFlags cs) Flag.Prepare); simpl;
    rewrite fold_left_snoc, !fold_left_pairs;
    fold docker; fold subst;
    destruct (Privileged docker), (negb (String.eqb (Entrypoint docker) ""));
    simpl; rewrite <- ?app_assoc; simpl; reflexivity.
Qed.

End DockerArgs.

(** C9. Every declared volume mapping that reads [src:dst] after
    substitution is appended as a [-v] argument: with [src] relative, as
    the cleaned join of the data directory and [src], then [:dst]; with
    [src] absolute, unchanged. *)
Theorem volume_mapping_resolved
    (QueryVar : VarContext -> string -> QueryResult)
    (mkdirAll LoadImage : string -> option error)
    (instanceRun : NodeState -> nat -> InstanceState -> InstanceState * option error)
    (cs : CloudState) (n : nat) (ns : NodeState) (vol : string) (pos : nat) :
  mkdirAll (cs_stateDir cs) = None ->
  LoadImage (Image (ns_Node ns)) = None ->
  vol ∈ Volumes (Docker (ns_Node ns)) ->
  let volMap := Subst.Substitute
    (QueryVar {| Cloud := cs; ctx_Node := Some n; ctx_Instance := None |}) vol in
  Index volMap ":" = Z.of_nat pos -> 0 < pos ->
  let src := slice volMap 0 pos in
  let dst := sliceFrom volMap (pos + 1) in
  let arg := if GoPath.IsAbs src then volMap
             else GoPath.Clean (GoPath.Join [cs_DataDir cs; src]) +:+ ":" +:+ dst in
  (exists before after,
     ns_DockerArgs (NodeRun.rr_state
       (NodeRun.NodeState_run QueryVar mkdirAll LoadImage instanceRun cs n ns))
     = before ++ ["-v"; arg] ++ after)
  /\ NodeRun.volumeArg "/srv/cluster1" "data:/app/data" = "/srv/cluster1/data:/app/data"
  /\ NodeRun.volumeArg "/srv/cluster1" "/abs/path:/app/data" = "/abs/path:/app/data".
Proof.
  intros Hmk Hload Hin volMap Hidx Hpos src dst arg.
  split; [|split; vm_compute; reflexivity].
  rewrite (DockerArgs_built QueryVar mkdirAll LoadImage instanceRun cs n ns Hmk Hload).
  apply list_elem_of_split in Hin as (l1 & l2 & ->).
  rewrite flat_map_app.
  change (flat_map ?f (vol :: l2)) with (f vol ++ flat_map f l2).
  cbv beta. fold volMap.
  rewrite (volumeArg_spec (cs_DataDir cs) volMap pos Hidx Hpos).
  fold src dst arg.
  match goal with
  | |- exists before after,
        ?a ++ ?b ++ ?c ++ ?d ++ (?l ++ ?m ++ ?r) ++ ?t = _ =>
      exists (a ++ b ++ c ++ d ++ l), (r ++ t)
  end.
  rewrite <- !app_assoc. reflexivity.
Qed.


Lemma volume_mapping_resolved_witness :
  (exists before after,
     ns_DockerArgs (NodeRun.rr_state
       (NodeRun.NodeState_run Sample.noVars Sample.mkdirOk Sample.loadOk
          Sample.secondFails (Sample.cloud 0) 0 (NodeRun.newNodeState Sample.web)))
     = before ++ ["-v"; "/srv/cluster1/data:/app/data"] ++ after)
  /\ NodeRun.volumeArg "/srv/cluster1" "data:/app/data" = "/srv/cluster1/data:/app/data"
  /\ NodeRun.volumeArg "/srv/cluster1" "/abs/path:/app/data" = "/abs/path:/app/data".
Proof.
  apply (volume_mapping_resolved Sample.noVars Sample.mkdirOk Sample.loadOk
           Sample.secondFails (Sample.cloud 0) 0 (NodeRun.newNodeState Sample.web)
           "data:/app/data" 4).
  - reflexivity.
  - reflexivity.
  - simpl. left.
  - vm_compute. reflexivity.
  - lia.
Defined.

(** ** Cross-references *)

Lemma localVars_QueryVar_absent (vs : localVars) (key : string) :
  values vs !! key = None -> localVars_QueryVar vs key = notFound.
Proof. unfold localVars_QueryVar. now intros ->. Qed.

Lemma localVars_QueryVar_not_exists (vs : localVars) (key : string) :
  snd (localVars_QueryVar vs key) = false ->
  localVars_QueryVar vs key = notFound /\ values vs !! key = None.
Proof.
  unfold localVars_QueryVar. destruct (values vs !! key); simpl; [discriminate|auto].
Qed.


(** A lookup that cannot answer without an observation of its target has
    located the target, found the key absent, and entered the wait loop. *)
Lemma queryNode_waits (ctx : VarContext) (ref key : string) :
  Xref.queryNode ctx ref key [] = None ->
  forall obs, Xref.queryNode ctx ref key obs = Xref.waitLoop key notFound obs.
Proof.
  unfold Xref.queryNode. intros H obs.
  destruct (Xref.findNode ctx ref) as [n|]; [|discriminate].
  destruct (cs_Nodes (Cloud ctx) !! n) as [ns|]; [|discriminate].
  destruct (snd (localVars_QueryVar (ns_LocalVars ns) key)) eqn:E;
    [discriminate|].
  destruct (bool_decide (Some n = ctx_Node ctx)); [discriminate|]. simpl.
  now destruct (localVars_QueryVar_not_exists _ _ E) as [-> _].
Qed.

Lemma queryInstance_waits (ctx : VarContext) (ref key : string) :
  Xref.queryInstance ctx ref key [] = None ->
  forall obs, Xref.queryInstance ctx ref key obs = Xref.waitLoop key notFound obs.
Proof.
  unfold Xref.queryInstance. intros H obs.
  destruct (LastIndex ref "-" <=? 0)%Z; [discriminate|].
  destruct (Xref.findNode ctx _) as [n|]; [|discriminate].
  destruct (cs_Nodes (Cloud ctx) !! n) as [ns|]; [|discriminate].
  destruct (Atoi _) as [index|]; [|discriminate].
  destruct ((index <? 0)%Z || _); [discriminate|].
  destruct (ns_Instances ns !! Z.to_nat index) as [is_|]; [|discriminate].
  destruct (snd (localVars_QueryVar (is_LocalVars is_) key)) eqn:E;
    [discriminate|].
  destruct (bool_decide _); [discriminate|]. simpl.
  now destruct (localVars_QueryVar_not_exists _ _ E) as [-> _].
Qed.

Lemma QueryVar_waits (ctx : VarContext) (name : string) :
  Xref.QueryVar name ctx [] = None ->
  forall obs, Xref.QueryVar name ctx obs = Xref.waitLoop (Xref.key name) notFound obs.
Proof.
  unfold Xref.QueryVar, Xref.key. intros H obs.
  destruct (Index name ":" <=? 0)%Z; [discriminate|].
  destruct (String.eqb _ "instances").
  - now apply queryNode_waits.
  - destruct (String.eqb _ "ip" || String.eqb _ "mac"); [|discriminate].
    now apply queryInstance_waits.
Qed.



Lemma IndexFrom_prefix (c : ascii) (a b : string) (k : nat) :
  Subst.allBytes (fun x => negb (Ascii.eqb x c)) a = true ->
  IndexFrom c (a +:+ String c b) k = Z.of_nat (k + String.length a).
Proof.
  revert k. induction a as [|x a IH]; intros k Ha.
  - rewrite append_nil_l. simpl. rewrite Ascii.eqb_refl. f_equal. lia.
  - rewrite append_cons. simpl in *. apply andb_true_iff in Ha as [Hx Ha].
    apply negb_true_iff in Hx. rewrite Hx, (IH (S k) Ha). f_equal. lia.
Qed.

Lemma slice_prefix (a b : string) : slice (a +:+ b) 0 (String.length a) = a.
Proof.
  unfold slice. rewrite Nat.sub_0_r.
  induction a as [|x a IH]; [now destruct b|].
  rewrite append_cons. simpl. f_equal. exact IH.
Qed.

Lemma sliceFrom_suffix (a b : string) (c : ascii) :
  sliceFrom (a +:+ String c b) (String.length a + 1) = b.
Proof.
  unfold sliceFrom, len. rewrite length_append. simpl String.length.
  replace (String.length a + S (String.length b) - (String.length a + 1))
    with (String.length b) by lia.
  induction a as [|x a IH].
  - rewrite append_nil_l. simpl. apply substring_all.
  - rewrite append_cons. simpl. exact IH.
Qed.

(** The provider splits a name [key:ref] at its colon. *)
Lemma QueryVar_split (key ref : string) (ctx : VarContext) (obs : list Xref.Observation) :
  key = "ip" \/ key = "mac" \/ key = "instances" ->
  Xref.QueryVar (key +:+ ":" +:+ ref) ctx obs =
    if String.eqb key "instances" then Xref.queryNode ctx ref key obs
    else Xref.queryInstance ctx ref key obs.
Proof.
  intros Hkey.
  assert (Hfree : Subst.allBytes (fun x => negb (Ascii.eqb x ":"%char)) key = true)
    by (destruct Hkey as [->|[->| ->]]; reflexivity).
  assert (Hlen : 0 < String.length key)
    by (destruct Hkey as [->|[->| ->]]; simpl; lia).
  unfold Xref.QueryVar.
  change (key +:+ ":" +:+ ref) with (key +:+ String ":"%char ref).
  unfold Index. rewrite (IndexFrom_prefix _ _ _ 0 Hfree). simpl Nat.add.
  replace (Z.of_nat (String.length key) <=? 0)%Z with false
    by (symmetry; apply Z.leb_gt; lia).
  rewrite Nat2Z.id, slice_prefix, sliceFrom_suffix.
  destruct Hkey as [->|[->| ->]]; reflexivity.
Qed.

(** C7. A malformed cross-reference resolves as not-found: for [ip:] and
    [mac:], a reference without a usable [-] separator, with an unknown
    node name, with an index that is not a number, or with an index
    outside the instances of its node; for [instances:], an unknown node
    name.  The answer needs no observation of any target, so the lookup
    does not wait, and it is no error. *)
Theorem malformed_xref_not_found
    (ctx : VarContext) (key ref : string) (obs : list Xref.Observation) :
  Xref.Malformed ctx key ref ->
  Xref.QueryVar (key +:+ ":" +:+ ref) ctx obs = Some notFound
  /\ Xref.QueryVar (key +:+ ":" +:+ ref) ctx [] = Some notFound.
Proof.
  assert (Hinst : forall k, k = "ip" \/ k = "mac" -> String.eqb k "instances" = false)
    by (intros k [->| ->]; reflexivity).
  intros H. revert obs.
  enough (forall obs, Xref.QueryVar (key +:+ ":" +:+ ref) ctx obs = Some notFound)
    by (intros obs; split; auto).
  intros obs.
  destruct H as [key ref Hk Hpos|key ref Hk Hnode|key ref Hk Hnum
                |key ref n ns index Hk Hnode Hns Hnum Hrange|ref Hnode].
  - rewrite QueryVar_split, (Hinst _ Hk) by tauto.
    unfold Xref.queryInstance.
    now replace (LastIndex ref "-" <=? 0)%Z with true by (symmetry; apply Z.leb_le; lia).
  - rewrite QueryVar_split, (Hinst _ Hk) by tauto.
    unfold Xref.queryInstance.
    destruct (LastIndex ref "-" <=? 0)%Z; [reflexivity|]. now rewrite Hnode.
  - rewrite QueryVar_split, (Hinst _ Hk) by tauto.
    unfold Xref.queryInstance.
    destruct (LastIndex ref "-" <=? 0)%Z; [reflexivity|].
    destruct (Xref.findNode ctx _); [|reflexivity].
    destruct (cs_Nodes (Cloud ctx) !! _); [|reflexivity]. now rewrite Hnum.
  - rewrite QueryVar_split, (Hinst _ Hk) by tauto.
    unfold Xref.queryInstance.
    destruct (LastIndex ref "-" <=? 0)%Z; [reflexivity|].
    rewrite Hnode, Hns, Hnum.
    replace ((index <? 0)%Z || (Z.of_nat (length (ns_Instances ns)) <=? index)%Z)
      with true; [reflexivity|].
    symmetry. apply orb_true_iff. destruct Hrange; [left; apply Z.ltb_lt | right; apply Z.leb_le]; lia.
  - rewrite QueryVar_split by tauto. simpl.
    unfold Xref.queryNode. now rewrite Hnode.
Qed.

Lemma malformed_xref_not_found_witness :
  Xref.QueryVar ("ip" +:+ ":" +:+ "db-7") Sample.ctx [] = Some notFound
  /\ Xref.QueryVar ("ip" +:+ ":" +:+ "db-7") Sample.ctx [] = Some notFound.
Proof.
  apply malformed_xref_not_found.
  apply (Xref.OutOfRange Sample.ctx "ip" "db-7" 1 (NodeRun.newNodeState Sample.db) 7%Z).
  - now left.
  - vm_compute. reflexivity.
  - reflexivity.
  - vm_compute. reflexivity.
  - right. vm_compute. discriminate.
Defined.

(** ** Container creation *)

Section CreateProperties.

Import Driver.

Variable host : Host.

Lemma bind_eq {A B} (m : M A) (k : A -> M B) (w w' : World) (a : A) :
  m w = (a, w') -> bind m k w = k a w'.
Proof. unfold bind. now intros ->. Qed.

Lemma osRemove_ok (path : string) (w : World) :
  fsFault host w (RemoveFile path) = None ->
  exists r, (r = None \/ r = Some ErrNotExist)
    /\ osRemove host path w =
         (r, {| files := delete path (files w); log := log w ++ [RemoveFile path] |}).
Proof.
  intros Hf. unfold osRemove. rewrite Hf.
  destruct (files w !! path) eqn:E.
  - exists None. auto.
  - exists (Some ErrNotExist). split; [auto|].
    now rewrite (delete_id _ _ E).
Qed.

(** C4. [Create] over a prior marker file that names a still-running
    container: the old container is stopped first, the new create is
    given [--volumes-from] the old one, the old container is
    force-removed after the new create and only if it succeeded, and
    after a failed create the marker file holds the old id again. *)
Theorem Create_over_running_container
    (cidfile : string) (args : list string) (cid : string) (w : World) :
  let inspectArgs := ["inspect"; "-f"; "{{.State.Running}}"; cid] in
  let createArgs :=
    ["create"; "--cidfile=" +:+ cidfile] ++ args ++ ["--volumes-from=" +:+ cid] in
  let w1 := logged w (ReadFile cidfile) in
  let w2 := afterCommand host w1 inspectArgs in
  let w3 := afterCommand host w2 ["stop"; cid] in
  let w4 := {| files := delete cidfile (files w3);
               log := log w3 ++ [RemoveFile cidfile] |} in
  let created := engine host w4 createArgs in
  let w5 := afterCommand host w4 createArgs in
  files w !! cidfile = Some cid -> cid <> "" ->
  fsFault host w (ReadFile cidfile) = None ->
  cr_err (engine host w1 inspectArgs) = None ->
  Trim (cr_out (engine host w1 inspectArgs)) blanks = "true" ->
  fsFault host w3 (RemoveFile cidfile) = None ->
  exists newCid w',
    Create host cidfile args w = ((newCid, cr_err created), w')
    /\ log w' = log w ++
         [ReadFile cidfile; Command inspectArgs; Command ["stop"; cid];
          RemoveFile cidfile; Command createArgs;
          match cr_err created with
          | None => Command ["rm"; "--force"; cid]
          | Some _ => WriteFile cidfile cid
          end]
    /\ (cr_err created = None -> newCid = Trim (cr_out created) blanks)
    /\ (cr_err created <> None ->
        fsFault host w5 (WriteFile cidfile cid) = None ->
        files w' !! cidfile = Some cid).
Proof.
  intros inspectArgs createArgs w1 w2 w3 w4 created w5
         Hfile Hcid Hread Hinsp Hrun Hrm.
  assert (Hne : String.eqb cid "" = false) by now apply String.eqb_neq.
  unfold Create.
  rewrite (bind_eq _ _ w w1 (cid, None))
    by (unfold readFile; now rewrite Hread, Hfile).
  cbv beta iota. rewrite Hne. cbn [negb].
  unfold bind at 1.
  unfold bind at 1. unfold isRunning, Inspect.
  rewrite (bind_eq _ _ w1 w2 ("true", None))
    by (unfold cmdOutput; fold inspectArgs; now rewrite Hinsp, Hrun).
  cbv beta iota. unfold ret at 1. cbn [String.eqb Ascii.eqb Bool.eqb].
  unfold bind at 1. unfold bind at 1. unfold Stop at 1, cmdRun at 1.
  fold w3. unfold ret at 1. unfold ret at 1.
  destruct (osRemove_ok cidfile w3 Hrm) as (r & Hr & Hrem). fold w4 in Hrem.
  rewrite (bind_eq _ _ w3 w4 r Hrem).
  assert (Hargs : (["create"; "--cidfile=" +:+ cidfile] ++ args)
                    ++ ["--volumes-from=" +:+ cid] = createArgs)
    by (unfold createArgs; now rewrite <- app_assoc).
  rewrite Hargs.
  assert (Hlog5 : log w5 = log w ++
            [ReadFile cidfile; Command inspectArgs; Command ["stop"; cid];
             RemoveFile cidfile; Command createArgs]).
  { unfold w5, afterCommand, w4, w3, w2, w1, logged. simpl.
    now rewrite <- !app_assoc. }
  assert (Hgo : forall k : string * option error -> M (string * option error),
            match r with
            | Some (ErrOther e) => ret ("", Some e)
            | _ => bind (cmdOutput host createArgs) k
            end = bind (cmdOutput host createArgs) k)
    by (destruct Hr as [-> | ->]; reflexivity).
  rewrite Hgo. clear Hgo.
  unfold bind at 1. unfold cmdOutput. fold created. fold w5.
  destruct (cr_err created) as [e|] eqn:Hc.
  - rewrite Hne. cbn [negb]. unfold bind, writeFile, ret.
    destruct (fsFault host w5 (WriteFile cidfile cid)) eqn:Hw.
    + eexists _, _. split; [reflexivity|]. cbn [log files].
      rewrite Hlog5, <- app_assoc. repeat split; discriminate.
    + eexists _, _. split; [reflexivity|]. cbn [log files].
      rewrite Hlog5, <- app_assoc. repeat split; try discriminate.
      intros _ _. apply lookup_insert_eq.
  - rewrite Hne. cbn [negb]. unfold bind, RmForce, cmdRun, ret.
    eexists _, _. split; [reflexivity|].
    unfold afterCommand at 1. cbn [log files].
    rewrite Hlog5, <- app_assoc. repeat split; congruence.
Qed.

End CreateProperties.

Lemma Create_over_running_container_witness :
  exists newCid w',
    Driver.Create Sample.full "/srv/cluster1/.cargo/demo/web.0.cid" ["nginx"]
      Sample.marked
    = ((newCid, Some "no space left on device"), w')
    /\ Driver.files w' !! "/srv/cluster1/.cargo/demo/web.0.cid" = Some "old123".
Proof.
  destruct (Create_over_running_container Sample.full
              "/srv/cluster1/.cargo/demo/web.0.cid" ["nginx"] "old123" Sample.marked)
    as (newCid & w' & HC & _ & _ & Hrestore).
  - vm_compute. reflexivity.
  - discriminate.
  - reflexivity.
  - reflexivity.
  - vm_compute. reflexivity.
  - reflexivity.
  - exists newCid, w'. split; [exact HC|].
    apply Hrestore; [discriminate | reflexivity].
Defined.

(** ** Paths *)





(** ** Start, confirmation and cleanup *)

Section StartProperties.

Import Driver Lifecycle.

Variable host : Host.
Variable QueryVar : VarContext -> string -> QueryResult.









End StartProperties.



(** ** Node fan-out *)

Section NodeProperties.

Import NodeRun.

Variable QueryVar : VarContext -> string -> QueryResult.
Variable mkdirAll : string -> option error.
Variable LoadImage : string -> option error.
Variable instanceRun : NodeState -> nat -> InstanceState -> InstanceState * option error.

Lemma instanceTask_Error (ns : NodeState) (i : nat) (is_ : InstanceState) :
  is_Error (instanceTask instanceRun ns i is_) = snd (instanceRun ns i is_)
  /\ is_Stopped (instanceTask instanceRun ns i is_) = true.
Proof. unfold instanceTask. now destruct (instanceRun ns i is_). Qed.

(** C6. A node whose image fails to load returns that error, which is
    recorded as the node's error, without spawning any instance task;
    its instances are left as they were.  A node whose image loads
    spawns every instance task; each instance records the error of its
    own task whatever its siblings return, the node's own error stays
    nil, and the node's [AnyError] is true exactly when some instance
    task returned an error. *)
Theorem node_failure_policy (cs : CloudState) (n : nat) (ns : NodeState) :
  mkdirAll (cs_stateDir cs) = None ->
  let r := nodeTask QueryVar mkdirAll LoadImage instanceRun cs n ns in
  (forall e, LoadImage (Image (ns_Node ns)) = Some e ->
     rr_err r = Some e /\ ns_Error (rr_state r) = Some e
     /\ rr_spawned r = []
     /\ ns_Instances (rr_state r) = ns_Instances ns
     /\ ns_Stopped (rr_state r) = true)
  /\ (LoadImage (Image (ns_Node ns)) = None ->
      rr_err r = None /\ ns_Error (rr_state r) = None
      /\ rr_spawned r = seq 0 (length (ns_Instances ns))
      /\ ns_Stopped (rr_state r) = true
      /\ exists ns',
           (forall i is_, ns_Instances ns !! i = Some is_ ->
              exists is',
                ns_Instances (rr_state r) !! i = Some is'
                /\ is_Error is' = snd (instanceRun ns' i is_)
                /\ is_Stopped is' = true)
           /\ (NodeState_AnyError (rr_state r) = true <->
               exists i is_, ns_Instances ns !! i = Some is_
                             /\ snd (instanceRun ns' i is_) <> None)).
Proof.
  intros Hmk r. subst r. unfold nodeTask, NodeState_run. rewrite Hmk.
  cbn [ns_Node ns_UpdateVar set_Image set_DockerArgs ns_Instances].
  split.
  - intros e He. rewrite He. cbn. auto.
  - intros Hok. rewrite Hok. unfold prepareNode.
    assert (Hp : (if hasFlag (cs_RunFlags cs) Flag.Prepare
                  then @None error else None) = None)
      by now destruct (hasFlag _ _).
    rewrite Hp. cbn -[imap Subst.Substitute volumeArg].
    rewrite length_imap.
    repeat split.
    match goal with
    | |- context [imap (instanceTask instanceRun ?s) _] => set (ns' := s)
    end.
    exists ns'. split.
    + intros i is_ Hi. exists (instanceTask instanceRun ns' i is_).
      rewrite list_lookup_imap, Hi. split; [reflexivity|].
      apply instanceTask_Error.
    + unfold NodeState_AnyError. cbn -[imap Subst.Substitute volumeArg].
      rewrite instancesAnyError_iff. split.
      * intros (is' & Hin & Herr).
        apply list_elem_of_lookup in Hin as (i & Hi).
        rewrite list_lookup_imap in Hi.
        destruct (ns_Instances ns !! i) as [is_|] eqn:E; [|discriminate].
        injection Hi as <-. exists i, is_. split; [exact E|].
        now rewrite <- (proj1 (instanceTask_Error ns' i is_)).
      * intros (i & is_ & Hi & Herr).
        exists (instanceTask instanceRun ns' i is_). split.
        -- apply list_elem_of_lookup. exists i.
           now rewrite list_lookup_imap, Hi.
        -- now rewrite (proj1 (instanceTask_Error ns' i is_)).
Qed.

End NodeProperties.

Lemma node_failure_policy_witness :
  let r := NodeRun.nodeTask Sample.noVars Sample.mkdirOk Sample.loadFails
             Sample.secondFails (Sample.cloud 0) 0 (NodeRun.newNodeState Sample.web) in
  NodeRun.rr_err r = Some "pull failed" /\ NodeRun.rr_spawned r = [].
Proof.
  destruct (node_failure_policy Sample.noVars Sample.mkdirOk Sample.loadFails
              Sample.secondFails (Sample.cloud 0) 0 (NodeRun.newNodeState Sample.web))
    as [Hfail _]; [reflexivity|].
  destruct (Hfail "pull failed") as (Herr & _ & Hspawned & _); [reflexivity|].
  split; [exact Herr | exact Hspawned].
Defined.

(** ** The image-load cache *)

Section CacheProperties.

Import ImageCache.

Variable Pull : list string -> string -> option error.

Lemma countIf_insert (p : Caller -> bool) (l : list Caller) (t : nat) (c c' : Caller) :
  l !! t = Some c ->
  countIf p (<[t := c']> l) + Nat.b2n (p c) = countIf p l + Nat.b2n (p c').
Proof.
  revert t. induction l as [|x l IH]; intros t H; [discriminate|].
  destruct t as [|t]; simpl in *.
  - injection H as ->. lia.
  - specialize (IH t H). lia.
Qed.

Lemma countIf_insert_same (p : Caller -> bool) (l : list Caller) (t : nat) (c c' : Caller) :
  l !! t = Some c -> p c = p c' -> countIf p (<[t := c']> l) = countIf p l.
Proof.
  intros H E. pose proof (countIf_insert p l t c c' H) as G. rewrite E in G. lia.
Qed.

Lemma pullCount_snoc (name n : string) (imgs : gmap string ImageLoader)
    (cs : list Caller) (ps : list string) :
  pullCount name {| Images := imgs; callers := cs; pulls := ps ++ [n] |}
  = length (filter (fun x => x = name) ps) + Nat.b2n (String.eqb n name).
Proof.
  unfold pullCount. cbn [pulls]. rewrite filter_app, length_app. f_equal.
  rewrite filter_cons, filter_nil.
  destruct (String.eqb_spec n name); case_decide; simpl; congruence.
Qed.

Lemma init_Inv (names : list string) : Inv (init names).
Proof.
  split.
  - unfold init. cbn. apply Forall_forall. intros c Hc.
    apply list_elem_of_fmap in Hc as (n & -> & _). exact I.
  - intros name. unfold nLoad, nStore, nDone, nEntry, pullCount, init. cbn.
    rewrite lookup_empty.
    assert (H : forall k, (forall pc, k pc = true -> pc <> Enter) ->
               countIf (atPc name k) (map (fun n => at_ n Enter) names) = 0).
    { intros k Hk. induction names as [|n ns IH]; [reflexivity|]. simpl.
      rewrite IH. unfold atPc. simpl.
      destruct (k Enter) eqn:E; [now apply Hk in E|]. now rewrite andb_false_r. }
    rewrite !H by (intros [] ?; discriminate). auto.
Qed.


Lemma atPc_other (name : string) (k : Pc -> bool) (c : Caller) :
  c_name c <> name -> atPc name k c = false.
Proof. intros H. unfold atPc. now apply String.eqb_neq in H as ->. Qed.

Lemma atPc_at (cn : string) (k : Pc -> bool) (pc : Pc) :
  atPc cn k {| c_name := cn; c_pc := pc |} = k pc.
Proof. unfold atPc. cbn. now rewrite String.eqb_refl. Qed.

Lemma consistent_insert_fresh (imgs : gmap string ImageLoader) (cn : string)
    (e : ImageLoader) (l : list Caller) :
  imgs !! cn = None ->
  Forall (consistent imgs) l -> Forall (consistent (<[cn := e]> imgs)) l.
Proof.
  intros Hnone H. eapply Forall_impl; [exact H|]. clear H.
  intros c. unfold consistent.
  destruct (c_pc c); auto.
  - intros (l0 & Hl & Hc). exists l0. split; [|exact Hc].
    rewrite lookup_insert_ne; [exact Hl | congruence].
  - intros (l0 & Hl & Hc). exists l0. split; [|exact Hc].
    rewrite lookup_insert_ne; [exact Hl | congruence].
Qed.

Lemma consistent_alter (imgs : gmap string ImageLoader) (cn : string)
    (f : ImageLoader -> ImageLoader) (l : list Caller) :
  (forall e, imgs !! cn = Some e -> il_complete e = true ->
             il_complete (f e) = true /\ il_Error (f e) = il_Error e) ->
  Forall (consistent imgs) l -> Forall (consistent (alter f cn imgs)) l.
Proof.
  intros Hf H. eapply Forall_impl; [exact H|]. clear H.
  intros c. unfold consistent.
  destruct (c_pc c); auto.
  - intros (l0 & Hl & Hc). destruct (decide (c_name c = cn)) as [E|E].
    + exists (f l0). rewrite E in *. rewrite lookup_alter_eq, Hl.
      split; [reflexivity|]. now apply (Hf l0 Hl Hc).
    + exists l0. now rewrite lookup_alter_ne by congruence.
  - intros (l0 & Hl & Hc & Hr). destruct (decide (c_name c = cn)) as [E|E].
    + exists (f l0). rewrite E in *. rewrite lookup_alter_eq, Hl.
      split; [reflexivity|]. destruct (Hf l0 Hl Hc) as [H1 H2].
      split; [exact H1 | congruence].
    + exists l0. now rewrite lookup_alter_ne by congruence.
Qed.

(** Every step keeps the invariant. *)
Lemma step_Inv (t : nat) (s : State) : Inv s -> Inv (step Pull t s).
Proof.
  intros [Hcons Hcount]. unfold step.
  destruct (callers s !! t) as [c|] eqn:Ht; [|now split].
  destruct c as [cn pc]. cbn [c_name c_pc].
  pose proof (Hcount cn) as [Hsum Hpull].
  pose proof (fun k c' => countIf_insert (atPc cn k) (callers s) t _ c' Ht) as Hins.
  assert (Hother : forall name k c', name <> cn -> c_name c' = cn ->
            countIf (atPc name k) (<[t := c']> (callers s))
            = countIf (atPc name k) (callers s)).
  { intros name k c' Hne Hc'. apply (countIf_insert_same _ _ _ _ _ Ht).
    rewrite !atPc_other; [reflexivity | congruence | cbn; congruence]. }
  pose proof (Forall_lookup_1 _ _ _ _ Hcons Ht) as Hme.
  unfold nLoad, nStore, nDone, nEntry in Hsum, Hpull.
  destruct pc as [| | | | |r].
  - (* Enter *)
    destruct (Images s !! cn) as [l|] eqn:Himg.
    + split; cbn [Images callers pulls].
      * apply Forall_insert; [exact Hcons | exact I].
      * intros name. unfold nLoad, nStore, nDone, nEntry, pullCount.
        cbn [Images callers pulls].
        rewrite !(countIf_insert_same _ _ _ _ _ Ht)
          by (unfold atPc; cbn; now rewrite !andb_false_r).
        apply Hcount.
    + split; cbn [Images callers pulls].
      * apply Forall_insert; [|exact I].
        now apply consistent_insert_fresh.
      * intros name. unfold nLoad, nStore, nDone, nEntry, pullCount.
        cbn [Images callers pulls].
        destruct (decide (name = cn)) as [->|Hne].
        -- rewrite lookup_insert_eq. cbn [il_complete Nat.b2n].
           pose proof (Hins isLoad (at_ cn Load)) as H1.
           pose proof (Hins isStore (at_ cn Load)) as H2.
           unfold at_ in *. rewrite !atPc_at in H1, H2.
           cbn in H1, H2.
           unfold pullCount in Hpull. lia.
        -- rewrite lookup_insert_ne by congruence.
           rewrite !Hother by (assumption || reflexivity).
           apply Hcount.
  - (* Load *)
    pose proof (Hins isLoad (at_ cn Store)) as H1.
    pose proof (Hins isStore (at_ cn Store)) as H2.
    unfold at_ in *. rewrite !atPc_at in H1, H2. cbn in H1, H2.
    destruct (Images s !! cn) as [l|] eqn:Himg; [|lia].
    destruct (il_complete l) eqn:Hcomp; [cbn in Hsum; lia|].
    split; cbn [Images callers pulls].
    + apply Forall_insert; [|exact I].
      apply consistent_alter; [|exact Hcons].
      intros e He. rewrite Himg in He. injection He as <-. congruence.
    + intros name. unfold nLoad, nStore, nDone, nEntry.
      rewrite pullCount_snoc. cbn [Images callers pulls].
      destruct (decide (name = cn)) as [->|Hne].
      * rewrite lookup_alter_eq, Himg, String.eqb_refl. cbn.
        rewrite Hcomp. unfold pullCount in Hpull. cbn in *. lia.
      * rewrite lookup_alter_ne by congruence.
        rewrite !Hother by (assumption || reflexivity).
        replace (String.eqb cn name) with false
          by (symmetry; apply String.eqb_neq; congruence).
        cbn. rewrite Nat.add_0_r. apply Hcount.
  - (* Store *)
    pose proof (Hins isLoad (at_ cn Leave)) as H1.
    pose proof (Hins isStore (at_ cn Leave)) as H2.
    unfold at_ in *. rewrite !atPc_at in H1, H2. cbn in H1, H2.
    destruct (Images s !! cn) as [l|] eqn:Himg; [|lia].
    destruct (il_complete l) eqn:Hcomp; [cbn in Hsum; lia|].
    split; cbn [Images callers pulls].
    + apply Forall_insert.
      * apply consistent_alter; [|exact Hcons]. intros e _ _. now split.
      * exists (setComplete l). cbn. now rewrite lookup_alter_eq, Himg.
    + intros name. unfold nLoad, nStore, nDone, nEntry, pullCount.
      cbn [Images callers pulls].
      destruct (decide (name = cn)) as [->|Hne].
      * rewrite lookup_alter_eq, Himg. cbn.
        unfold pullCount in Hpull. cbn in *. lia.
      * rewrite lookup_alter_ne by congruence.
        rewrite !Hother by (assumption || reflexivity).
        apply Hcount.
  - (* Wait *)
    destruct (Images s !! cn) as [l|] eqn:Himg; [|now split].
    destruct (il_complete l) eqn:Hcomp; [|now split].
    split; cbn [Images callers pulls].
    + apply Forall_insert; [exact Hcons|]. exists l. now split.
    + intros name. unfold nLoad, nStore, nDone, nEntry, pullCount.
      cbn [Images callers pulls].
      rewrite !(countIf_insert_same _ _ _ _ _ Ht)
        by (unfold atPc; cbn; now rewrite !andb_false_r).
      apply Hcount.
  - (* Leave *)
    destruct (Images s !! cn) as [l|] eqn:Himg; [|now split].
    split; cbn [Images callers pulls].
    + apply Forall_insert; [exact Hcons|].
      destruct Hme as (l0 & Hl0 & Hc0). cbn in Hl0.
      rewrite Himg in Hl0. injection Hl0 as <-.
      exists l. now repeat split.
    + intros name. unfold nLoad, nStore, nDone, nEntry, pullCount.
      cbn [Images callers pulls].
      rewrite !(countIf_insert_same _ _ _ _ _ Ht)
        by (unfold atPc; cbn; now rewrite !andb_false_r).
      apply Hcount.
  - now split.
Qed.

Lemma run_Inv (sched : list nat) (s : State) : Inv s -> Inv (run Pull sched s).
Proof.
  revert s. induction sched as [|t sched IH]; intros s H; [exact H|].
  apply IH. now apply step_Inv.
Qed.


Lemma run_names (sched : list nat) (s : State) :
  map c_name (callers (run Pull sched s)) = map c_name (callers s).
Proof.
  revert s. induction sched as [|t sched IH]; intros s; [reflexivity|].
  cbn [run fold_left]. fold (run Pull sched (step Pull t s)). rewrite IH.
  unfold step. destruct (callers s !! t) as [c|] eqn:Ht; [|reflexivity].
  assert (Hgo : forall pc, map c_name (<[t := at_ (c_name c) pc]> (callers s))
                           = map c_name (callers s)).
  { intros pc. change (map c_name ?l) with (c_name <$> l).
    rewrite list_fmap_insert. apply list_insert_id.
    now rewrite list_lookup_fmap, Ht. }
  destruct (c_pc c); try destruct (Images s !! c_name c) as [l|];
    try destruct (il_complete l); cbn [callers]; auto.
Qed.




Lemma run_app (a b : list nat) (s : State) :
  run Pull (a ++ b) s = run Pull b (run Pull a s).
Proof. unfold run. apply fold_left_app. Qed.




End CacheProperties.


(* ===================================================================== *)
(** * Further properties                                                  *)
(* ===================================================================== *)

(** ** Variable repositories *)

(** X1. A value written with [UpdateVar] is what [QueryVar] then
    answers for that name; the other names answer as before; and no name
    that had a value loses it. *)
Theorem localVars_update_then_query (vs : localVars) (name value other : string) :
  localVars_QueryVar (localVars_UpdateVar vs name value) name = (value, true)
  /\ (other <> name ->
      localVars_QueryVar (localVars_UpdateVar vs name value) other
      = localVars_QueryVar vs other)
  /\ (snd (localVars_QueryVar vs other) = true ->
      snd (localVars_QueryVar (localVars_UpdateVar vs name value) other) = true).
Proof.
  unfold localVars_QueryVar, localVars_UpdateVar. cbn [values].
  split; [now rewrite lookup_insert_eq|]. split.
  - intros Hne. now rewrite lookup_insert_ne by congruence.
  - destruct (decide (other = name)) as [->|Hne].
    + now rewrite lookup_insert_eq.
    + now rewrite lookup_insert_ne by congruence.
Qed.

Lemma localVars_update_then_query_witness :
  localVars_QueryVar
    (localVars_UpdateVar (localVars_UpdateVar LocalVarsRepo "ip" "10.0.0.2")
       "mac" "02:42:0a:00:00:02") "ip"
  = localVars_QueryVar (localVars_UpdateVar LocalVarsRepo "ip" "10.0.0.2") "ip".
Proof.
  destruct (localVars_update_then_query
              (localVars_UpdateVar LocalVarsRepo "ip" "10.0.0.2")
              "mac" "02:42:0a:00:00:02" "ip") as (_ & Hother & _).
  apply Hother. discriminate.
Defined.

Lemma HasPrefix_append (p s : string) : HasPrefix (p +:+ s) p = true.
Proof.
  unfold HasPrefix. induction p as [|c p IH]; [now destruct s|].
  rewrite append_cons. simpl. destruct (ascii_dec c c); [exact IH | congruence].
Qed.

Lemma globalVars_map_shadows_providers
    (getenv : string -> string) (vs : localVars) (name value : string)
    (ctx : VarContext) (obs : list Xref.Observation) :
  values vs !! name = Some value ->
  globalVars_QueryVar getenv vs name ctx obs = Some (value, true).
Proof. intros H. unfold globalVars_QueryVar, localVars_QueryVar. now rewrite H. Qed.

(** X2. In every activation the global names [project], [cluster],
    [container] and [os] resolve, without waiting and whatever the
    environment holds, to the cluster name, the cluster name, [docker]
    and [linux]. *)
Theorem activation_global_names
    (getenv : string -> string) (ce : Activation.CloudEnv)
    (ctx : VarContext) (obs : list Xref.Observation) :
  let query name :=
    globalVars_QueryVar getenv (Activation.globalVars ce) name ctx obs in
  let cluster := Activation.cl_Name (Activation.ce_Cluster ce) in
  query "project" = Some (cluster, true)
  /\ query "cluster" = Some (cluster, true)
  /\ query "container" = Some ("docker", true)
  /\ query "os" = Some ("linux", true).
Proof.
  intros query cluster. unfold query.
  repeat split; apply globalVars_map_shadows_providers;
    unfold Activation.globalVars, localVars_UpdateVar, LocalVarsRepo; cbn [values];
    repeat (rewrite lookup_insert_ne by discriminate);
    apply lookup_insert_eq.
Qed.

(** X3. A name [env:NAME] that the map does not hold always exists: the
    answer is the environment variable, be it unset or empty, and the
    lookup does not wait. *)
Theorem globalVars_env_always_exists
    (getenv : string -> string) (vs : localVars) (var : string)
    (ctx : VarContext) (obs : list Xref.Observation) :
  values vs !! ("env:" +:+ var) = None ->
  globalVars_QueryVar getenv vs ("env:" +:+ var) ctx obs = Some (getenv var, true).
Proof.
  intros H. unfold globalVars_QueryVar, localVars_QueryVar. rewrite H. cbn [snd].
  change ("env:" +:+ var) with ("env" +:+ String ":"%char var).
  unfold Index. rewrite (IndexFrom_prefix ":"%char "env" var 0) by reflexivity.
  cbn [Nat.add String.length Z.of_nat Z.ltb Z.compare Pos.of_succ_nat Pos.succ
       Z.to_nat Pos.to_nat Pos.iter_op].
  change 3 with (String.length "env") at 1.
  rewrite slice_prefix. cbn [VarProviders String.eqb Ascii.eqb Bool.eqb].
  unfold providerEnv_QueryVar.
  change ("env" +:+ String ":"%char var) with ("env:" +:+ var).
  rewrite HasPrefix_append.
  change ("env:" +:+ var) with ("env" +:+ String ":"%char var).
  change 4 with (String.length "env" + 1). now rewrite sliceFrom_suffix.
Qed.

Lemma globalVars_env_always_exists_witness :
  globalVars_QueryVar (fun _ => "") LocalVarsRepo ("env:" +:+ "UNSET")
    Sample.ctx [] = Some ("", true).
Proof.
  apply (globalVars_env_always_exists (fun _ => "")). reflexivity.
Defined.

(** X4. A name that the map does not hold and that has no colon after
    its first byte, or whose prefix names no provider, is not found; the
    lookup does not wait. *)
Theorem globalVars_without_provider_not_found
    (getenv : string -> string) (vs : localVars) (name : string)
    (ctx : VarContext) (obs : list Xref.Observation) :
  values vs !! name = None ->
  (Index name ":" <= 0)%Z
  \/ VarProviders (slice name 0 (Z.to_nat (Index name ":"))) = None ->
  globalVars_QueryVar getenv vs name ctx obs = Some notFound.
Proof.
  intros H Hp. unfold globalVars_QueryVar, localVars_QueryVar. rewrite H. cbn [snd].
  destruct (0 <? Index name ":")%Z eqn:E; [|reflexivity].
  apply Z.ltb_lt in E. destruct Hp as [Hp|Hp]; [lia|]. now rewrite Hp.
Qed.

Lemma globalVars_without_provider_not_found_witness :
  globalVars_QueryVar (fun _ => "x") LocalVarsRepo "registry:port" Sample.ctx []
  = Some notFound.
Proof.
  apply globalVars_without_provider_not_found; [reflexivity|].
  right. vm_compute. reflexivity.
Defined.

(** ** Macro substitution, one reference *)

Lemma varRegExp_head (c : ascii) (s : string) :
  Derived.notPercent c = true -> Subst.varRegExp (String c s) = None.
Proof.
  unfold Derived.notPercent. intros H. apply negb_true_iff in H.
  unfold Subst.varRegExp.
  destruct (Ascii.eqb_spec c "%"%char) as [->|Hne]; [discriminate|].
  destruct c as [[] [] [] [] [] [] [] []]; try reflexivity; congruence.
Qed.

Lemma scan_skip (a b : string) (pos : nat) :
  Subst.scan (a +:+ b) pos (String.length a) = Subst.scan b (pos + String.length a) 0.
Proof.
  revert pos. induction a as [|c a IH]; intros pos.
  - rewrite append_nil_l. simpl. now rewrite Nat.add_0_r.
  - rewrite append_cons. simpl String.length. rewrite scan_cons.
    cbv beta iota. rewrite IH. f_equal. lia.
Qed.

Lemma scan_plain (s : string) (pos : nat) :
  Subst.allBytes Derived.notPercent s = true -> Subst.scan s pos 0 = [].
Proof.
  revert pos. induction s as [|c s IH]; intros pos H; [reflexivity|].
  simpl in H. apply andb_true_iff in H as [Hc Hs].
  rewrite scan_cons, (varRegExp_head c s Hc). now apply IH.
Qed.

Lemma scan_plain_prefix (pre rest : string) (pos : nat) :
  Subst.allBytes Derived.notPercent pre = true ->
  Subst.scan (pre +:+ rest) pos 0 = Subst.scan rest (pos + String.length pre) 0.
Proof.
  revert pos. induction pre as [|c pre IH]; intros pos H.
  - rewrite append_nil_l. simpl. now rewrite Nat.add_0_r.
  - simpl in H. apply andb_true_iff in H as [Hc Hs].
    rewrite append_cons, scan_cons, (varRegExp_head c _ Hc), (IH _ Hs).
    simpl String.length. f_equal. lia.
Qed.

Lemma nameRun_name (name post : string) :
  Subst.allBytes Subst.nameChar name = true ->
  Subst.nameRun (name +:+ String ")"%char post) = String.length name
  /\ Subst.byteAt (name +:+ String ")"%char post) (String.length name) = Some ")"%char.
Proof.
  unfold Subst.byteAt. induction name as [|c name IH]; intros H.
  - rewrite append_nil_l. simpl. auto.
  - simpl in H. apply andb_true_iff in H as [Hc Hs].
    rewrite append_cons. simpl. rewrite Hc.
    destruct (IH Hs) as [-> ->]. auto.
Qed.

Lemma varRegExp_reference (name post : string) :
  name <> "" -> Subst.allBytes Subst.nameChar name = true ->
  Subst.varRegExp ("%(" +:+ name +:+ ")" +:+ post) = Some (String.length name + 3).
Proof.
  intros Hne Hall.
  change ("%(" +:+ name +:+ ")" +:+ post)
    with (String "%"%char (String "("%char (name +:+ String ")"%char post))).
  unfold Subst.varRegExp.
  destruct (nameRun_name name post Hall) as [-> ->].
  destruct name; [congruence | reflexivity].
Qed.

Lemma substring_append_skip (a b : string) (k m : nat) :
  String.substring (String.length a + k) m (a +:+ b) = String.substring k m b.
Proof.
  induction a as [|c a IH]; [reflexivity|]. rewrite append_cons. simpl. exact IH.
Qed.

Lemma substring_prefix_of (a b : string) :
  String.substring 0 (String.length a) (a +:+ b) = a.
Proof.
  induction a as [|c a IH]; [now destruct b|].
  rewrite append_cons. simpl. f_equal. exact IH.
Qed.

(** X5. For a text with one reference between stretches without a
    percent sign, [Substitute] returns the text before the reference,
    the value of the name if it resolves and nothing if it does not, and
    the text after the reference short of its first byte.  A reference
    that ends the text is therefore replaced exactly. *)
Theorem Substitute_single_reference
    (QueryVar : string -> QueryResult) (pre name post : string) :
  Subst.allBytes Derived.notPercent pre = true ->
  name <> "" -> Subst.allBytes Subst.nameChar name = true ->
  Subst.allBytes Derived.notPercent post = true ->
  Subst.Substitute QueryVar (pre +:+ "%(" +:+ name +:+ ")" +:+ post)
  = pre +:+ (if snd (QueryVar name) then fst (QueryVar name) else "")
        +:+ sliceFrom post 1.
Proof.
  intros Hpre Hne Hname Hpost.
  set (text := pre +:+ "%(" +:+ name +:+ ")" +:+ post).
  assert (Hscan : Subst.FindAllStringIndex text
                  = [(String.length pre, String.length pre + (String.length name + 3))]).
  { unfold Subst.FindAllStringIndex, text.
    rewrite (scan_plain_prefix pre _ 0 Hpre). simpl Nat.add.
    change ("%(" +:+ name +:+ ")" +:+ post)
      with (String "%"%char (String "("%char (name +:+ String ")"%char post))).
    rewrite scan_cons.
    change (Subst.varRegExp _)
      with (Subst.varRegExp ("%(" +:+ name +:+ ")" +:+ post)).
    rewrite (varRegExp_reference name post Hne Hname).
    f_equal.
    replace (String "("%char (name +:+ String ")"%char post))
      with (("(" +:+ name +:+ ")") +:+ post)
      by (now rewrite !append_assoc).
    replace (String.length name + 3 - 1) with (String.length ("(" +:+ name +:+ ")"))
      by (change ("(" +:+ name +:+ ")") with (String "("%char (name +:+ ")"));
          simpl; rewrite length_append; simpl; lia).
    rewrite scan_skip. now apply scan_plain. }
  unfold Subst.Substitute. rewrite Hscan. cbn [fold_left Subst.substStep].
  assert (Hn : slice text (String.length pre + 2)
                 (String.length pre + (String.length name + 3) - 1) = name).
  { unfold slice, text.
    replace (String.length pre + (String.length name + 3) - 1 - (String.length pre + 2))
      with (String.length name) by lia.
    rewrite substring_append_skip.
    change ("%(" +:+ name +:+ ")" +:+ post)
      with (String "%"%char (String "("%char (name +:+ (")" +:+ post)))).
    simpl. apply substring_prefix_of. }
  rewrite Hn.
  assert (Hp : (if 0 <? String.length pre
                then "" +:+ slice text 0 (String.length pre) else "") = pre).
  { destruct pre as [|c pre']; [reflexivity|].
    cbn [String.length Nat.ltb Nat.leb]. rewrite append_nil_l.
    unfold text. apply slice_prefix. }
  rewrite Hp.
  destruct (QueryVar name) as [val found]. cbn [fst snd].
  assert (Hlen : len text = String.length pre + (String.length name + 3)
                            + String.length post).
  { unfold len, text. rewrite !length_append. simpl. lia. }
  assert (Htail : (if String.length pre + (String.length name + 3) + 1 <? len text
                   then sliceFrom text (String.length pre + (String.length name + 3) + 1)
                   else "") = sliceFrom post 1).
  { destruct (Nat.ltb_spec (String.length pre + (String.length name + 3) + 1)
                (len text)) as [E|E].
    - unfold sliceFrom. rewrite Hlen. unfold text.
      replace (String.length pre + (String.length name + 3) + String.length post
               - (String.length pre + (String.length name + 3) + 1))
        with (len post - 1) by (unfold len; lia).
      replace (String.length pre + (String.length name + 3) + 1)
        with (String.length pre + (String.length name + 4)) by lia.
      rewrite substring_append_skip.
      replace (String.length name + 4)
        with (String.length ("%(" +:+ name +:+ ")") + 1)
        by (change ("%(" +:+ name +:+ ")")
              with (String "%"%char (String "("%char (name +:+ ")")));
            simpl; rewrite length_append; simpl; lia).
      replace ("%(" +:+ name +:+ ")" +:+ post)
        with (("%(" +:+ name +:+ ")") +:+ post)
        by (now rewrite !append_assoc).
      now rewrite substring_append_skip.
    - rewrite Hlen in E.
      unfold sliceFrom, len.
      destruct post as [|c [|c' post']]; simpl in *; try reflexivity; lia. }
  rewrite <- Htail.
  destruct found;
    destruct (String.length pre + (String.length name + 3) + 1 <? len text);
    rewrite ?append_nil_l, ?append_nil_r, ?append_assoc; reflexivity.
Qed.

Lemma Substitute_single_reference_witness :
  Subst.Substitute (fun _ => ("10.0.0.2", true)) ("ping " +:+ "%(" +:+ "ip:db-0" +:+ ")" +:+ " -c 1")
  = "ping " +:+ "10.0.0.2" +:+ sliceFrom " -c 1" 1.
Proof.
  apply (Substitute_single_reference (fun _ => ("10.0.0.2", true))
           "ping " "ip:db-0" " -c 1"); try reflexivity. discriminate.
Defined.

(** ** Cross-references: answers without waiting *)

Lemma queryInstance_located (ctx : VarContext) (ref key : string) (n index : nat)
    (is_ : InstanceState) (obs : list Xref.Observation) :
  Derived.locatesInstance ctx ref n index is_ ->
  Xref.queryInstance ctx ref key obs =
    let r := localVars_QueryVar (is_LocalVars is_) key in
    if snd r || bool_decide (Some (n, index) = ctx_Instance ctx) then Some r
    else Xref.waitLoop key r obs.
Proof.
  intros (Hpos & Hnode & Hnum & ns & Hns & His).
  unfold Xref.queryInstance.
  replace (LastIndex ref "-" <=? 0)%Z with false by (symmetry; apply Z.leb_gt; lia).
  rewrite Hnode, Hns, Hnum.
  pose proof (lookup_lt_Some _ _ _ His) as Hlt.
  replace ((Z.of_nat index <? 0)%Z
           || (Z.of_nat (length (ns_Instances ns)) <=? Z.of_nat index)%Z)
    with false
    by (symmetry; apply orb_false_iff; split;
        [apply Z.ltb_ge | apply Z.leb_gt]; lia).
  now rewrite Nat2Z.id, His.
Qed.

Lemma queryNode_located (ctx : VarContext) (ref key : string) (n : nat)
    (ns : NodeState) (obs : list Xref.Observation) :
  Derived.locatesNode ctx ref n ns ->
  Xref.queryNode ctx ref key obs =
    let r := localVars_QueryVar (ns_LocalVars ns) key in
    if snd r || bool_decide (Some n = ctx_Node ctx) then Some r
    else Xref.waitLoop key r obs.
Proof. intros [Hnode Hns]. unfold Xref.queryNode. now rewrite Hnode, Hns. Qed.

(** X6. A cross-reference to a value its target has already published
    is answered at once with that value, whatever the target does later:
    [ip:] and [mac:] from the instance's scope, [instances:] from the
    node's. *)
Theorem xref_published_value_without_waiting
    (ctx : VarContext) (ref value : string) (obs : list Xref.Observation) :
  (forall key n index is_,
     key = "ip" \/ key = "mac" ->
     Derived.locatesInstance ctx ref n index is_ ->
     values (is_LocalVars is_) !! key = Some value ->
     Xref.QueryVar (key +:+ ":" +:+ ref) ctx obs = Some (value, true))
  /\ (forall n ns,
        Derived.locatesNode ctx ref n ns ->
        values (ns_LocalVars ns) !! "instances" = Some value ->
        Xref.QueryVar ("instances" +:+ ":" +:+ ref) ctx obs = Some (value, true)).
Proof.
  split.
  - intros key n index is_ Hkey Hloc Hval.
    rewrite QueryVar_split by tauto.
    replace (String.eqb key "instances") with false
      by (destruct Hkey as [-> | ->]; reflexivity).
    rewrite (queryInstance_located ctx ref key n index is_ obs Hloc).
    unfold localVars_QueryVar. now rewrite Hval.
  - intros n ns Hloc Hval.
    rewrite QueryVar_split by tauto. cbn [String.eqb Ascii.eqb Bool.eqb].
    rewrite (queryNode_located ctx ref "instances" n ns obs Hloc).
    unfold localVars_QueryVar. now rewrite Hval.
Qed.

Lemma xref_published_value_without_waiting_witness :
  Xref.QueryVar ("ip" +:+ ":" +:+ "db-0") Demo.ctx [] = Some ("10.0.0.2", true).
Proof.
  destruct (xref_published_value_without_waiting Demo.ctx "db-0" "10.0.0.2" [])
    as [Hinstance _].
  apply (Hinstance "ip" 1 0
           (nth 0 (ns_Instances Demo.dbUp) (NodeRun.newInstanceState 0))).
  - now left.
  - split; [reflexivity|]. split; [vm_compute; reflexivity|].
    split; [vm_compute; reflexivity|]. exists Demo.dbUp. split; reflexivity.
  - reflexivity.
Defined.

(** X7. An instance that refers to itself, or a node that refers to
    itself, never waits: the lookup returns what its own scope holds at
    that moment, found or not. *)
Theorem xref_self_reference_never_waits
    (ctx : VarContext) (ref : string) (obs : list Xref.Observation) :
  (forall key n index is_,
     key = "ip" \/ key = "mac" ->
     Derived.locatesInstance ctx ref n index is_ ->
     ctx_Instance ctx = Some (n, index) ->
     Xref.QueryVar (key +:+ ":" +:+ ref) ctx obs
     = Some (localVars_QueryVar (is_LocalVars is_) key))
  /\ (forall n ns,
        Derived.locatesNode ctx ref n ns ->
        ctx_Node ctx = Some n ->
        Xref.QueryVar ("instances" +:+ ":" +:+ ref) ctx obs
        = Some (localVars_QueryVar (ns_LocalVars ns) "instances")).
Proof.
  split.
  - intros key n index is_ Hkey Hloc Hself.
    rewrite QueryVar_split by tauto.
    replace (String.eqb key "instances") with false
      by (destruct Hkey as [-> | ->]; reflexivity).
    rewrite (queryInstance_located ctx ref key n index is_ obs Hloc).
    cbv zeta. rewrite Hself, bool_decide_eq_true_2 by reflexivity.
    now rewrite orb_true_r.
  - intros n ns Hloc Hself.
    rewrite QueryVar_split by tauto. cbn [String.eqb Ascii.eqb Bool.eqb].
    rewrite (queryNode_located ctx ref "instances" n ns obs Hloc).
    cbv zeta. rewrite Hself, bool_decide_eq_true_2 by reflexivity.
    now rewrite orb_true_r.
Qed.

Lemma xref_self_reference_never_waits_witness :
  Xref.QueryVar ("ip" +:+ ":" +:+ "web-0") Demo.ctx [] = Some notFound.
Proof.
  destruct (xref_self_reference_never_waits Demo.ctx "web-0" []) as [Hinstance _].
  apply (Hinstance "ip" 0 0 (NodeRun.newInstanceState 0)).
  - now left.
  - split; [reflexivity|]. split; [vm_compute; reflexivity|].
    split; [vm_compute; reflexivity|].
    exists (NodeRun.newNodeState Sample.web). split; reflexivity.
  - reflexivity.
Defined.

(** ** Cross-references: the wait loop *)

Lemma waitLoop_published (key value : string) (before : list Xref.Observation)
    (o : Xref.Observation) (later : list Xref.Observation) :
  Forall (fun o' => Xref.obs_Stopped o' = false
                    /\ values (Xref.obs_LocalVars o') !! key = None) before ->
  Xref.obs_Stopped o = false ->
  values (Xref.obs_LocalVars o) !! key = Some value ->
  Xref.waitLoop key notFound (before ++ o :: later) = Some (value, true).
Proof.
  intros Hb Hrun Hval. induction Hb as [|o' before [Ho1 Ho2] _ IH]; simpl.
  - rewrite Hrun. unfold localVars_QueryVar. now rewrite Hval.
  - rewrite Ho1, (localVars_QueryVar_absent _ _ Ho2). simpl. exact IH.
Qed.

Lemma waitLoop_blocked (key : string) (obs : list Xref.Observation) :
  Forall (fun o' => Xref.obs_Stopped o' = false
                    /\ values (Xref.obs_LocalVars o') !! key = None) obs ->
  Xref.waitLoop key notFound obs = None.
Proof.
  intros H. induction H as [|o' obs [Ho1 Ho2] _ IH]; simpl; [reflexivity|].
  rewrite Ho1, (localVars_QueryVar_absent _ _ Ho2). simpl. exact IH.
Qed.

(** X8. A lookup that has to wait is answered with the value as soon as
    a round of its loop finds the key published by a target that is not
    yet seen stopped; and as long as the rounds find the target neither
    stopped nor the key published, the lookup has no answer: it stays
    blocked, and two tasks waiting for each other's unpublished value
    stay blocked together. *)
Theorem xref_wait_until_published
    (ctx : VarContext) (name value : string)
    (before : list Xref.Observation) (o : Xref.Observation)
    (later : list Xref.Observation) :
  Xref.QueryVar name ctx [] = None ->
  Forall (fun o' => Xref.obs_Stopped o' = false
                    /\ values (Xref.obs_LocalVars o') !! Xref.key name = None)
         before ->
  Xref.QueryVar name ctx before = None
  /\ (Xref.obs_Stopped o = false ->
      values (Xref.obs_LocalVars o) !! Xref.key name = Some value ->
      Xref.QueryVar name ctx (before ++ o :: later) = Some (value, true)).
Proof.
  intros Hwait Hb. rewrite !(QueryVar_waits ctx name Hwait). split.
  - now apply waitLoop_blocked.
  - intros Hrun Hval. now apply waitLoop_published.
Qed.

Lemma xref_wait_until_published_witness :
  Xref.QueryVar "ip:db-0" Sample.ctx ([Sample.waiting] ++ Demo.published :: [])
  = Some ("10.0.0.2", true).
Proof.
  destruct (xref_wait_until_published Sample.ctx "ip:db-0" "10.0.0.2"
              [Sample.waiting] Demo.published []) as [_ Hvalue].
  - vm_compute. reflexivity.
  - repeat constructor.
  - apply Hvalue; reflexivity.
Defined.

(** ** Cross-references: finding the node *)

Lemma findNodeFrom_spec (nss : list NodeState) (name : string) (k : nat) :
  match Xref.findNodeFrom nss name k with
  | Some i =>
      exists j ns, i = k + j /\ nss !! j = Some ns /\ Name (ns_Node ns) = name
        /\ forall j' ns', j' < j -> nss !! j' = Some ns' -> Name (ns_Node ns') <> name
  | None => Forall (fun ns => Name (ns_Node ns) <> name) nss
  end.
Proof.
  revert k. induction nss as [|ns nss IH]; intros k; simpl; [constructor|].
  destruct (String.eqb_spec (Name (ns_Node ns)) name) as [E|E].
  - exists 0, ns. repeat split; [lia | exact E | intros; lia].
  - specialize (IH (S k)). destruct (Xref.findNodeFrom nss name (S k)) as [i|].
    + destruct IH as (j & ns0 & -> & Hj & Hn & Hfirst).
      exists (S j), ns0. repeat split; [lia | exact Hj | exact Hn |].
      intros [|j'] ns' Hlt Hl; simpl in Hl.
      * now injection Hl as <-.
      * apply (Hfirst j' ns'); [lia | exact Hl].
    + constructor; [exact E | exact IH].
Qed.

(** X9. [findNode] returns the position of the first node state with the
    given name, and nothing exactly when no node has that name; two nodes
    of one name make the later one unreachable by cross-reference. *)
Theorem findNode_first_of_name (ctx : VarContext) (name : string) :
  match Xref.findNode ctx name with
  | Some i =>
      exists ns, cs_Nodes (Cloud ctx) !! i = Some ns /\ Name (ns_Node ns) = name
        /\ forall j ns', j < i -> cs_Nodes (Cloud ctx) !! j = Some ns' ->
                         Name (ns_Node ns') <> name
  | None => forall ns, ns ∈ cs_Nodes (Cloud ctx) -> Name (ns_Node ns) <> name
  end.
Proof.
  unfold Xref.findNode.
  pose proof (findNodeFrom_spec (cs_Nodes (Cloud ctx)) name 0) as H.
  destruct (Xref.findNodeFrom (cs_Nodes (Cloud ctx)) name 0) as [i|].
  - destruct H as (j & ns & -> & Hj & Hn & Hfirst). exists ns. auto.
  - intros ns Hin. exact (proj1 (Forall_forall _ _) H ns Hin).
Qed.

(** ** Container creation without a usable marker *)

Section CreateEdges.

Import Driver.

Variable host : Host.

Lemma osRemove_after (path : string) (w : World) :
  fsFault host w (RemoveFile path) = None ->
  forall {A} (k : M A) (fail : error -> M A),
    match fst (osRemove host path w) with
    | Some (ErrOther e) => fail e
    | _ => k
    end = k
    /\ snd (osRemove host path w)
       = {| files := delete path (files w); log := log w ++ [RemoveFile path] |}.
Proof.
  intros Hf A k fail. destruct (osRemove_ok host path w Hf) as (r & Hr & ->).
  cbn [fst snd]. now destruct Hr as [-> | ->].
Qed.

(** X10. Without a marker file, with an empty one, or with one that
    cannot be read, [Create] removes the marker path and issues the plain
    create command: nothing is inspected, stopped or force-removed, no
    [--volumes-from] is passed, and nothing is written back if the
    create fails. *)
Theorem Create_without_marker
    (cidfile : string) (args : list string) (w : World) :
  files w !! cidfile = None \/ files w !! cidfile = Some ""
  \/ fsFault host w (ReadFile cidfile) <> None ->
  let w1 := logged w (ReadFile cidfile) in
  let w2 := {| files := delete cidfile (files w1);
               log := log w1 ++ [RemoveFile cidfile] |} in
  let createArgs := ["create"; "--cidfile=" +:+ cidfile] ++ args in
  fsFault host w1 (RemoveFile cidfile) = None ->
  Create host cidfile args w = cmdOutput host createArgs w2
  /\ log (snd (Create host cidfile args w))
     = log w ++ [ReadFile cidfile; RemoveFile cidfile; Command createArgs].
Proof.
  intros Hmark w1 w2 createArgs Hrm.
  assert (Hread : exists c r, readFile host cidfile w = ((c, r), w1)
                    /\ match r with None => c | Some _ => "" end = "").
  { unfold readFile. fold w1.
    destruct (fsFault host w (ReadFile cidfile)) as [e|] eqn:Hf.
    - now exists "", (Some (ErrOther e)).
    - destruct Hmark as [Hm|[Hm|Hm]]; [| |congruence]; rewrite Hm.
      + now exists "", (Some ErrNotExist).
      + now exists "", None. }
  destruct Hread as (c & r & Hread & Hcid).
  destruct (osRemove_ok host cidfile w1 Hrm) as (r' & Hr' & Hrem). fold w2 in Hrem.
  assert (Hcreate : Create host cidfile args w = cmdOutput host createArgs w2).
  { unfold Create. rewrite (bind_eq _ _ _ _ _ Hread). cbv beta iota.
    rewrite Hcid. cbn [String.eqb negb]. unfold bind at 1, ret at 1.
    rewrite (bind_eq _ _ _ _ _ Hrem).
    destruct Hr' as [-> | ->]; unfold bind; fold createArgs;
      destruct (cmdOutput host createArgs w2) as [[newCid err] w3];
      cbn [String.eqb negb]; reflexivity. }
  split; [exact Hcreate|]. rewrite Hcreate. unfold cmdOutput.
  destruct (cr_err _); cbn [snd afterCommand log]; unfold w2, w1, logged;
    cbn [log]; now rewrite <- !app_assoc.
Qed.

(** X11. With a marker file that names a container the engine cannot
    inspect, [Create] forgets the marker: it removes the file and issues
    the plain create command, without [--volumes-from], without
    force-removing anything, and without writing the old id back if the
    create fails. *)
Theorem Create_with_stale_marker
    (cidfile : string) (args : list string) (cid : string) (e : error) (w : World) :
  let w1 := logged w (ReadFile cidfile) in
  let w2 := afterCommand host w1 (runningQuery cid) in
  let w3 := {| files := delete cidfile (files w2);
               log := log w2 ++ [RemoveFile cidfile] |} in
  let createArgs := ["create"; "--cidfile=" +:+ cidfile] ++ args in
  files w !! cidfile = Some cid -> cid <> "" ->
  fsFault host w (ReadFile cidfile) = None ->
  cr_err (engine host w1 (runningQuery cid)) = Some e ->
  fsFault host w2 (RemoveFile cidfile) = None ->
  Create host cidfile args w = cmdOutput host createArgs w3
  /\ log (snd (Create host cidfile args w))
     = log w ++ [ReadFile cidfile; Command (runningQuery cid);
                 RemoveFile cidfile; Command createArgs].
Proof.
  intros w1 w2 w3 createArgs Hfile Hcid Hread Hinsp Hrm.
  assert (Hne : String.eqb cid "" = false) by now apply String.eqb_neq.
  destruct (osRemove_ok host cidfile w2 Hrm) as (r' & Hr' & Hrem). fold w3 in Hrem.
  assert (Hcreate : Create host cidfile args w = cmdOutput host createArgs w3).
  { unfold Create.
    rewrite (bind_eq _ _ w w1 (cid, None))
      by (unfold readFile; now rewrite Hread, Hfile).
    cbv beta iota. rewrite Hne. cbn [negb].
    unfold bind at 1. unfold bind at 1. unfold isRunning, Inspect.
    rewrite (bind_eq _ _ w1 w2 ("", Some e))
      by (unfold cmdOutput; fold (runningQuery cid); now rewrite Hinsp).
    cbv beta iota. unfold ret at 1. unfold ret at 1.
    rewrite (bind_eq _ _ _ _ _ Hrem).
    destruct Hr' as [-> | ->]; unfold bind; fold createArgs;
      destruct (cmdOutput host createArgs w3) as [[newCid err] w4];
      cbn [String.eqb negb]; reflexivity. }
  split; [exact Hcreate|]. rewrite Hcreate. unfold cmdOutput.
  destruct (cr_err (engine host w3 createArgs));
    cbn [snd afterCommand log]; unfold w3, w2, afterCommand, w1, logged;
    cbn [log]; now rewrite <- !app_assoc.
Qed.

(** X12. With a marker file that names a container which exists but is
    not running, [Create] issues no stop; it still passes
    [--volumes-from] the old container, force-removes the old container
    after a successful create, and writes the old id back after a failed
    one. *)
Theorem Create_over_stopped_container
    (cidfile : string) (args : list string) (cid : string) (w : World) :
  let createArgs :=
    ["create"; "--cidfile=" +:+ cidfile] ++ args ++ ["--volumes-from=" +:+ cid] in
  let w1 := logged w (ReadFile cidfile) in
  let w2 := afterCommand host w1 (runningQuery cid) in
  let w3 := {| files := delete cidfile (files w2);
               log := log w2 ++ [RemoveFile cidfile] |} in
  let created := engine host w3 createArgs in
  files w !! cidfile = Some cid -> cid <> "" ->
  fsFault host w (ReadFile cidfile) = None ->
  cr_err (engine host w1 (runningQuery cid)) = None ->
  Trim (cr_out (engine host w1 (runningQuery cid))) blanks <> "true" ->
  fsFault host w2 (RemoveFile cidfile) = None ->
  exists newCid w',
    Create host cidfile args w = ((newCid, cr_err created), w')
    /\ log w' = log w ++
         [ReadFile cidfile; Command (runningQuery cid);
          RemoveFile cidfile; Command createArgs;
          match cr_err created with
          | None => Command ["rm"; "--force"; cid]
          | Some _ => WriteFile cidfile cid
          end].
Proof.
  intros createArgs w1 w2 w3 created Hfile Hcid Hread Hinsp Hrun Hrm.
  assert (Hne : String.eqb cid "" = false) by now apply String.eqb_neq.
  apply String.eqb_neq in Hrun.
  destruct (osRemove_ok host cidfile w2 Hrm) as (r' & Hr' & Hrem). fold w3 in Hrem.
  unfold Create.
  rewrite (bind_eq _ _ w w1 (cid, None))
    by (unfold readFile; now rewrite Hread, Hfile).
  cbv beta iota. rewrite Hne. cbn [negb].
  unfold bind at 1. unfold bind at 1. unfold isRunning, Inspect.
  rewrite (bind_eq _ _ w1 w2 (Trim (cr_out (engine host w1 (runningQuery cid))) blanks, None))
    by (unfold cmdOutput; fold (runningQuery cid); now rewrite Hinsp).
  cbv beta iota. unfold ret at 1. rewrite Hrun.
  unfold bind at 1. unfold ret at 1. unfold ret at 1.
  rewrite (bind_eq _ _ _ _ _ Hrem).
  assert (Hargs : (["create"; "--cidfile=" +:+ cidfile] ++ args)
                    ++ ["--volumes-from=" +:+ cid] = createArgs)
    by (unfold createArgs; now rewrite <- app_assoc).
  rewrite Hargs.
  assert (Hlog : log (afterCommand host w3 createArgs) = log w ++
            [ReadFile cidfile; Command (runningQuery cid);
             RemoveFile cidfile; Command createArgs])
    by (unfold afterCommand, w3, w2, afterCommand, w1, logged; simpl;
        now rewrite <- !app_assoc).
  assert (Hgo : forall k : string * option error -> M (string * option error),
            match r' with
            | Some (ErrOther e) => ret ("", Some e)
            | _ => bind (cmdOutput host createArgs) k
            end = bind (cmdOutput host createArgs) k)
    by (destruct Hr' as [-> | ->]; reflexivity).
  rewrite Hgo. clear Hgo.
  unfold bind at 1. unfold cmdOutput. fold created.
  destruct (cr_err created) as [e|] eqn:Hc; rewrite Hne; cbn [negb].
  - unfold bind, writeFile, ret.
    destruct (fsFault host _ (WriteFile cidfile cid));
      (eexists _, _; split; [reflexivity|]; cbn [log];
       now rewrite Hlog, <- app_assoc).
  - unfold bind, RmForce, cmdRun, ret.
    eexists _, _. split; [reflexivity|].
    unfold afterCommand at 1. cbn [log]. now rewrite Hlog, <- app_assoc.
Qed.

(** X13. When the marker path cannot be removed, for a reason other
    than its absence, [Create] returns that error and an empty id, and
    never issues the create command; a container found running has
    been stopped by then all the same. *)
Theorem Create_marker_not_removable
    (cidfile : string) (args : list string) (e : error) (w : World) :
  (forall w', fsFault host w' (RemoveFile cidfile) = Some e) ->
  exists delta w',
    Create host cidfile args w = (("", Some e), w')
    /\ log w' = log w ++ delta ++ [RemoveFile cidfile]
    /\ Forall (fun ev => forall a, ev <> Command ("create" :: a)) delta.
Proof.
  intros Hrm.
  assert (Hrem : forall w0, osRemove host cidfile w0
                  = (Some (ErrOther e), logged w0 (RemoveFile cidfile)))
    by (intros w0; unfold osRemove; now rewrite Hrm).
  unfold Create, readFile, isRunning, Inspect, cmdOutput, Stop, cmdRun, ret, bind.
  destruct (fsFault host w (ReadFile cidfile)) as [e0|].
  - cbn [String.eqb negb]. rewrite Hrem.
    exists [ReadFile cidfile]. eexists. split; [reflexivity|].
    split; [cbn; now rewrite <- app_assoc | repeat constructor; discriminate].
  - destruct (files w !! cidfile) as [cid|].
    + destruct (String.eqb cid "") eqn:Hcid; cbn [negb].
      * rewrite Hrem. exists [ReadFile cidfile]. eexists. split; [reflexivity|].
        split; [cbn; now rewrite <- app_assoc | repeat constructor; discriminate].
      * fold (runningQuery cid).
        destruct (cr_err (engine host (logged w (ReadFile cidfile)) (runningQuery cid)));
          cbv beta iota.
        -- rewrite Hrem.
           exists [ReadFile cidfile; Command (runningQuery cid)]. eexists.
           split; [reflexivity|].
           split; [cbn; now rewrite <- !app_assoc | repeat constructor; discriminate].
        -- destruct (String.eqb _ "true"); cbv beta iota; rewrite Hrem.
           ++ exists [ReadFile cidfile; Command (runningQuery cid);
                      Command ["stop"; cid]]. eexists.
              split; [reflexivity|].
              split; [cbn; now rewrite <- !app_assoc | repeat constructor; discriminate].
           ++ exists [ReadFile cidfile; Command (runningQuery cid)]. eexists.
              split; [reflexivity|].
              split; [cbn; now rewrite <- !app_assoc | repeat constructor; discriminate].
    + cbn [String.eqb negb]. rewrite Hrem.
      exists [ReadFile cidfile]. eexists. split; [reflexivity|].
      split; [cbn; now rewrite <- app_assoc | repeat constructor; discriminate].
Qed.

End CreateEdges.

Lemma Create_without_marker_witness :
  Driver.log (snd (Driver.Create Sample.idle "/srv/cluster1/.cargo/demo/web.0.cid"
                     ["nginx"] Sample.world0))
  = Driver.log Sample.world0 ++
    [Driver.ReadFile "/srv/cluster1/.cargo/demo/web.0.cid";
     Driver.RemoveFile "/srv/cluster1/.cargo/demo/web.0.cid";
     Driver.Command (["create"; "--cidfile=" +:+ "/srv/cluster1/.cargo/demo/web.0.cid"]
                     ++ ["nginx"])].
Proof.
  destruct (Create_without_marker Sample.idle "/srv/cluster1/.cargo/demo/web.0.cid"
              ["nginx"] Sample.world0) as [_ Hlog].
  - left. reflexivity.
  - reflexivity.
  - exact Hlog.
Defined.

Lemma Create_with_stale_marker_witness :
  Driver.log (snd (Driver.Create Demo.gone "/srv/cluster1/.cargo/demo/web.0.cid"
                     ["nginx"] Sample.marked))
  = Driver.log Sample.marked ++
    [Driver.ReadFile "/srv/cluster1/.cargo/demo/web.0.cid";
     Driver.Command (Driver.runningQuery "old123");
     Driver.RemoveFile "/srv/cluster1/.cargo/demo/web.0.cid";
     Driver.Command (["create"; "--cidfile=" +:+ "/srv/cluster1/.cargo/demo/web.0.cid"]
                     ++ ["nginx"])].
Proof.
  destruct (Create_with_stale_marker Demo.gone "/srv/cluster1/.cargo/demo/web.0.cid"
              ["nginx"] "old123" "No such container" Sample.marked) as [_ Hlog].
  - vm_compute. reflexivity.
  - discriminate.
  - reflexivity.
  - reflexivity.
  - reflexivity.
  - exact Hlog.
Defined.

Lemma Create_over_stopped_container_witness :
  exists newCid w',
    Driver.Create Sample.idle "/srv/cluster1/.cargo/demo/web.0.cid" ["nginx"]
      Sample.marked = ((newCid, None), w').
Proof.
  destruct (Create_over_stopped_container Sample.idle
              "/srv/cluster1/.cargo/demo/web.0.cid" ["nginx"] "old123" Sample.marked)
    as (newCid & w' & HC & _).
  - vm_compute. reflexivity.
  - discriminate.
  - reflexivity.
  - reflexivity.
  - vm_compute. discriminate.
  - reflexivity.
  - exists newCid, w'. exact HC.
Defined.

Lemma Create_marker_not_removable_witness :
  exists w',
    Driver.Create Demo.readonly "/srv/cluster1/.cargo/demo/web.0.cid" ["nginx"]
      Sample.marked = (("", Some "read-only file system"), w').
Proof.
  destruct (Create_marker_not_removable Demo.readonly
              "/srv/cluster1/.cargo/demo/web.0.cid" ["nginx"]
              "read-only file system" Sample.marked) as (delta & w' & HC & _).
  - intros w'. reflexivity.
  - exists w'. exact HC.
Defined.

(** ** Start: how long, and what success means *)

Section StartBounds.

Import Driver.

Variable host : Host.

Lemma commandCount_app (args : list string) (a b : list Event) :
  Derived.commandCount args (a ++ b)
  = Derived.commandCount args a + Derived.commandCount args b.
Proof.
  induction a as [|ev a IH]; [reflexivity|].
  destruct ev; simpl; rewrite IH; lia.
Qed.

Lemma sleepTotal_app (a b : list Event) :
  Derived.sleepTotal (a ++ b) = Derived.sleepTotal a + Derived.sleepTotal b.
Proof.
  induction a as [|ev a IH]; [reflexivity|].
  destruct ev; simpl; rewrite IH; lia.
Qed.

Lemma isRunning_world (cid : string) (w : World) :
  snd (isRunning host cid w) = afterCommand host w (runningQuery cid).
Proof.
  unfold isRunning, Inspect, bind, cmdOutput, ret. fold (runningQuery cid).
  now destruct (cr_err (engine host w (runningQuery cid))).
Qed.

Lemma pollRunning_bounded (cid : string) (attempts i : nat) (w w' : World)
    (r : option error) :
  pollRunning host cid attempts i w = (r, w') ->
  exists delta,
    log w' = log w ++ delta
    /\ Derived.commandCount (runningQuery cid) delta <= attempts
    /\ Derived.sleepTotal delta <= Derived.sleepBudget attempts i
    /\ (r = None \/ r = Some errorStartTimeout).
Proof.
  revert i w. induction attempts as [|k IH]; intros i w H.
  - injection H as <- <-. exists []. cbn. rewrite app_nil_r. auto.
  - cbn [pollRunning] in H. unfold bind at 1 in H.
    pose proof (isRunning_world cid w) as Hw.
    destruct (isRunning host cid w) as [[running err] w1]. cbn [snd] in Hw. subst w1.
    destruct (isNil err && running).
    + injection H as <- <-. exists [Command (runningQuery cid)]. cbn.
      rewrite bool_decide_eq_true_2 by reflexivity. repeat split; try lia. now left.
    + unfold bind at 1, emit at 1 in H.
      destruct (IH _ _ H) as (delta & Hlog & Hcount & Hsleep & Hres).
      exists ([Command (runningQuery cid); Sleep ((i + 1) * 100)] ++ delta).
      rewrite Hlog. cbn [log logged afterCommand].
      rewrite commandCount_app, sleepTotal_app. cbn.
      rewrite bool_decide_eq_true_2 by reflexivity.
      repeat split; [now rewrite <- !app_assoc | lia | lia | exact Hres].
Qed.

(** X14. Whatever the engine answers, a start asks at most eight times
    whether the container runs and sleeps at most 3600 ms in all; it
    returns nil, the start timeout, or the error of the start command
    itself. *)
Theorem Start_is_bounded (cid : string) (wg : bool) (w w' : World)
    (r : option error) :
  Start host cid wg w = (r, w') ->
  exists delta,
    log w' = log w ++ delta
    /\ Derived.commandCount (runningQuery cid) delta <= 8
    /\ Derived.sleepTotal delta <= 3600
    /\ (r = None \/ r = Some errorStartTimeout
        \/ r = cr_err (engine host w ["start"; cid])
        \/ r = launch host w ["start"; "-a"; cid]).
Proof.
  unfold Start. destruct wg; cbn [negb app].
  - unfold bind at 1, cmdStart at 1.
    destruct (launch host w ["start"; "-a"; cid]) as [e|] eqn:Hl.
    + intros [= <- <-]. exists [Launch ["start"; "-a"; cid]]. cbn.
      repeat split; try lia. auto.
    + unfold bind at 1, emit at 1. intros H.
      destruct (pollRunning_bounded cid 8 0 _ _ _ H)
        as (delta & Hlog & Hcount & Hsleep & Hres).
      exists ([Launch ["start"; "-a"; cid]; WgAdd] ++ delta).
      rewrite Hlog. cbn [log logged].
      rewrite commandCount_app, sleepTotal_app. cbn in *.
      repeat split; [now rewrite <- !app_assoc | lia | lia | tauto].
  - unfold cmdRun. intros [= <- <-]. exists [Command ["start"; cid]]. cbn.
    rewrite bool_decide_eq_false_2 by discriminate.
    repeat split; try lia. auto.
Qed.

Lemma pollRunning_success (cid : string) (attempts i : nat) (w : World) :
  fst (pollRunning host cid attempts i w) = None ->
  exists w0,
    cr_err (engine host w0 (runningQuery cid)) = None
    /\ Trim (cr_out (engine host w0 (runningQuery cid))) blanks = "true".
Proof.
  revert i w. induction attempts as [|k IH]; intros i w; [discriminate|].
  cbn [pollRunning]. unfold bind at 1.
  destruct (isRunning host cid w) as [[running err] w1] eqn:Hrun.
  destruct (isNil err && running) eqn:Hok.
  - intros _. exists w. apply andb_true_iff in Hok as [Herr Hr].
    unfold isRunning, Inspect, bind, cmdOutput, ret in Hrun.
    fold (runningQuery cid) in Hrun.
    destruct (cr_err (engine host w (runningQuery cid))) as [e|].
    + injection Hrun as <- <- _. discriminate.
    + injection Hrun as <- _ _. split; [reflexivity|].
      now apply String.eqb_eq.
  - unfold bind at 1, emit at 1. apply IH.
Qed.

(** X15. An attached start returns nil only when the engine has
    answered, without error, that the container is running. *)
Theorem Start_attached_success_means_confirmed (cid : string) (w : World) :
  fst (Start host cid true w) = None ->
  exists w0,
    cr_err (engine host w0 (runningQuery cid)) = None
    /\ Trim (cr_out (engine host w0 (runningQuery cid))) blanks = "true".
Proof.
  unfold Start. cbn [negb app]. unfold bind at 1, cmdStart at 1.
  destruct (launch host w ["start"; "-a"; cid]); [discriminate|].
  unfold bind at 1, emit at 1. apply pollRunning_success.
Qed.

End StartBounds.

Lemma Start_is_bounded_witness :
  exists delta,
    Driver.log (snd (Driver.Start Sample.idle "c1" true Sample.world0))
    = Driver.log Sample.world0 ++ delta
    /\ Derived.sleepTotal delta <= 3600.
Proof.
  destruct (Start_is_bounded Sample.idle "c1" true Sample.world0
              (snd (Driver.Start Sample.idle "c1" true Sample.world0))
              (fst (Driver.Start Sample.idle "c1" true Sample.world0)))
    as (delta & Hlog & _ & Hsleep & _).
  - now destruct (Driver.Start Sample.idle "c1" true Sample.world0).
  - exists delta. split; [exact Hlog | exact Hsleep].
Defined.

Lemma Start_attached_success_means_confirmed_witness :
  exists w0,
    Driver.cr_err (Driver.engine Demo.eager w0 (Driver.runningQuery "c1")) = None
    /\ Trim (Driver.cr_out (Driver.engine Demo.eager w0 (Driver.runningQuery "c1")))
         blanks = "true".
Proof.
  apply (Start_attached_success_means_confirmed Demo.eager "c1" Sample.world0).
  vm_compute. reflexivity.
Defined.

(** ** The instance lifecycle *)

Section LifecycleEdges.

Import Driver Lifecycle.

Variable host : Host.
Variable QueryVar : VarContext -> string -> QueryResult.

Lemma remove_clears_id (is_ : InstanceState) (w : World) :
  is_ContainerId (fst (InstanceState_remove host is_ w)) = "".
Proof.
  unfold InstanceState_remove.
  destruct (String.eqb_spec (is_ContainerId is_) "") as [E|E]; cbn [negb].
  - exact E.
  - unfold RmForce, cmdRun, osRemove, ret, bind.
    destruct (negb (String.eqb (is_cidfile is_) "")); [|reflexivity].
    destruct (fsFault host _ _); [reflexivity|].
    cbn [files]. destruct (_ !! _); reflexivity.
Qed.

(** X16. [remove] clears the container id, so a second [remove], or a
    [stop], of the same instance issues no command at all: an instance
    removed at the end of its run is skipped by the teardown. *)
Theorem remove_then_nothing (is_ : InstanceState) (w : World) :
  let '(is', w') := InstanceState_remove host is_ w in
  is_ContainerId is' = ""
  /\ InstanceState_remove host is' w' = (is', w')
  /\ InstanceState_stop host is' w' = (tt, w').
Proof.
  pose proof (remove_clears_id is_ w) as H.
  destruct (InstanceState_remove host is_ w) as [is' w']. cbn [fst] in H.
  unfold InstanceState_remove, InstanceState_stop. rewrite H.
  cbn [String.eqb negb]. auto.
Qed.

(** X17. When the create command fails, the run of the instance
    returns that error at once: no start is issued and nothing is
    removed. *)
Theorem run_stops_at_failed_create
    (cs : CloudState) (n : nat) (ns : NodeState) (is_ : InstanceState)
    (index : nat) (w w0 w1 : World) (cid : string) (e : error) :
  writeWrapper host (hasFlag (cs_RunFlags cs) Flag.Run)
    (runDirOf cs ns index) (remoteScriptOf cs ns index) w = (None, w0) ->
  Create host (cidfileOf cs ns index) (ns_DockerArgs ns) w0 = ((cid, Some e), w1) ->
  exists is',
    InstanceState_run host QueryVar cs n ns is_ index w = ((is', Some e), w1)
    /\ is_ContainerId is' = cid.
Proof.
  intros Hprep Hcreate. unfold InstanceState_run.
  rewrite (bind_eq _ _ _ _ _ Hprep). cbv beta iota.
  cbn [is_cidfile set_cidfile].
  rewrite (bind_eq _ _ _ _ _ Hcreate). cbv beta iota.
  eexists. split; reflexivity.
Qed.

(** X18. A command group whose commands are all blank once substituted
    and trimmed of spaces runs nothing: no file is written, no command
    is executed in the container, and there is no error. *)
Theorem blank_commands_run_nothing
    (ctx : VarContext) (shell cid remoteWrapper localScript : string)
    (commands : list string) (w : World) :
  Forall (fun c => Trim (Subst.Substitute (QueryVar ctx) c) " " = "") commands ->
  runCommandList host QueryVar ctx shell cid remoteWrapper localScript commands w
  = (None, w).
Proof.
  intros H. induction H as [|c commands Hc _ IH]; [reflexivity|].
  cbn [runCommandList]. rewrite Hc. cbn [String.eqb]. exact IH.
Qed.

(** X19. A command that is not blank is run in four steps: the old
    exit marker is removed, the script is written with its shell line,
    the wrapper is executed in the container, and the exit marker is
    read.  An exit code of zero lets the remaining commands run; any
    other exit code ends the group with the error [Exit code: command],
    and the remaining commands are not run. *)
Theorem command_exit_code_decides
    (ctx : VarContext) (shell cid remoteWrapper localScript command : string)
    (rest : list string) (w : World) (content : string) (code : Z) :
  let cmd := Trim (Subst.Substitute (QueryVar ctx) command) " " in
  let exitFile := localScript +:+ ".exit" in
  let script := "#!" +:+ shell +:+ nl +:+ cmd in
  let w1 := {| files := delete exitFile (files w);
               log := log w ++ [RemoveFile exitFile] |} in
  let w2 := {| files := <[localScript := script]> (files w1);
               log := log w1 ++ [WriteFile localScript script] |} in
  let w3 := afterCommand host w2 ["exec"; cid; remoteWrapper] in
  let w4 := logged w3 (ReadFile exitFile) in
  cmd <> "" ->
  fsFault host w (RemoveFile exitFile) = None ->
  fsFault host w1 (WriteFile localScript script) = None ->
  cr_err (engine host w2 ["exec"; cid; remoteWrapper]) = None ->
  fsFault host w3 (ReadFile exitFile) = None ->
  files w3 !! exitFile = Some content ->
  Atoi (Trim content blanks) = Some code ->
  runCommandList host QueryVar ctx shell cid remoteWrapper localScript
    (command :: rest) w
  = if (code =? 0)%Z
    then runCommandList host QueryVar ctx shell cid remoteWrapper localScript rest w4
    else (Some ("Exit " +:+ pretty code +:+ ": " +:+ cmd), w4).
Proof.
  intros cmd exitFile script w1 w2 w3 w4 Hcmd Hrm Hwrite Hexec Hread Hfile Hcode.
  cbn [runCommandList]. fold cmd.
  apply String.eqb_neq in Hcmd. rewrite Hcmd.
  destruct (osRemove_ok host exitFile w Hrm) as (r & Hr & Hrem).
  fold exitFile. fold w1 in Hrem.
  rewrite (bind_eq _ _ _ _ _ Hrem).
  fold script.
  assert (Hw : writeFile host localScript script w1 = (None, w2))
    by (unfold writeFile; now rewrite Hwrite).
  assert (Hx : Exec host cid [remoteWrapper] w2 = (None, w3))
    by (unfold Exec, cmdRun; cbn [app]; now rewrite Hexec).
  assert (Hrd : readFile host exitFile w3 = ((content, None), w4))
    by (unfold readFile; now rewrite Hread, Hfile).
  destruct Hr as [-> | ->];
    rewrite (bind_eq _ _ _ _ _ Hw); cbv beta iota;
    rewrite (bind_eq _ _ _ _ _ Hx); cbv beta iota;
    rewrite (bind_eq _ _ _ _ _ Hrd); cbv beta iota;
    rewrite Hcode; destruct (code =? 0)%Z; reflexivity.
Qed.

(** X20. Without the [Run] and [Stop] flags, an instance whose create
    and start succeed is left running: after the start the run only
    asks for the address and the hardware address, returns no error and
    keeps the container id; with [Stop] clear the [Remove] flag has no
    effect. *)
Theorem run_without_stop_leaves_container
    (cs : CloudState) (n : nat) (ns : NodeState) (is_ : InstanceState)
    (index : nat) (w w1 w2 : World) (cid : string) :
  hasFlag (cs_RunFlags cs) Flag.Run = false ->
  hasFlag (cs_RunFlags cs) Flag.Stop = false ->
  Create host (cidfileOf cs ns index) (ns_DockerArgs ns) w = ((cid, None), w1) ->
  Start host cid (negb (hasFlag (cs_RunFlags cs) Flag.Detach)) w1 = (None, w2) ->
  exists is' w',
    InstanceState_run host QueryVar cs n ns is_ index w = ((is', None), w')
    /\ is_ContainerId is' = cid
    /\ log w' = log w2 ++
         [Command ["inspect"; "-f"; "{{.NetworkSettings.IPAddress}}"; cid];
          Command ["inspect"; "-f"; "{{.NetworkSettings.MacAddress}}"; cid]].
Proof.
  intros Hrun Hstop Hcreate Hstart. unfold InstanceState_run.
  rewrite Hrun, Hstop. unfold writeWrapper. unfold bind at 1, ret at 1.
  cbn [is_cidfile set_cidfile].
  rewrite (bind_eq _ _ _ _ _ Hcreate). cbv beta iota.
  cbn [is_ContainerId set_ContainerId].
  rewrite (bind_eq _ _ _ _ _ Hstart). cbv beta iota.
  unfold Inspect, bind, cmdOutput, ret.
  destruct (cr_err (engine host w2 _)); cbv beta iota;
    destruct (cr_err (engine host (afterCommand host w2 _) _)); cbv beta iota;
    (eexists _, _; split; [reflexivity|]; split;
     [cbn [isNil]; unfold is_UpdateVar; reflexivity
     |cbn [log afterCommand]; now rewrite <- app_assoc]).
Qed.

End LifecycleEdges.

Lemma run_stops_at_failed_create_witness :
  exists is',
    Lifecycle.InstanceState_run Sample.full Sample.noVars (Sample.cloud 0) 0
      (NodeRun.newNodeState Sample.web) (NodeRun.newInstanceState 0) 0 Sample.world0
    = ((is', Some "no space left on device"),
       snd (Driver.Create Sample.full
              (Lifecycle.cidfileOf (Sample.cloud 0) (NodeRun.newNodeState Sample.web) 0)
              [] Sample.world0))
    /\ is_ContainerId is' = "".
Proof.
  apply (run_stops_at_failed_create Sample.full Sample.noVars (Sample.cloud 0) 0
           (NodeRun.newNodeState Sample.web) (NodeRun.newInstanceState 0) 0
           Sample.world0 Sample.world0).
  - reflexivity.
  - vm_compute. reflexivity.
Defined.

Lemma blank_commands_run_nothing_witness :
  Lifecycle.runCommandList Sample.idle Sample.noVars Sample.ctx "/bin/bash" "c1"
    "/.cargo.workspace/.cargo/demo/web.0.run/run.sh"
    "/srv/cluster1/.cargo/demo/web.0.run/cmd.sh" [""; "   "] Sample.world0
  = (None, Sample.world0).
Proof.
  apply (blank_commands_run_nothing Sample.idle Sample.noVars).
  repeat constructor; vm_compute; reflexivity.
Defined.

Lemma command_exit_code_decides_witness :
  exists w',
    Lifecycle.runCommandList Demo.failing Sample.noVars Sample.ctx "/bin/bash" "c1"
      "/.cargo.workspace/.cargo/demo/web.0.run/run.sh"
      "/srv/cluster1/.cargo/demo/web.0.run/cmd.sh" ["false"; "echo never"]
      Sample.world0
    = (Some "Exit 1: false", w').
Proof.
  eexists.
  rewrite (command_exit_code_decides Demo.failing Sample.noVars Sample.ctx "/bin/bash"
             "c1" "/.cargo.workspace/.cargo/demo/web.0.run/run.sh"
             "/srv/cluster1/.cargo/demo/web.0.run/cmd.sh" "false" ["echo never"]
             Sample.world0 ("1" +:+ Lifecycle.nl) 1%Z).
  - vm_compute. reflexivity.
  - vm_compute. discriminate.
  - reflexivity.
  - reflexivity.
  - reflexivity.
  - reflexivity.
  - vm_compute. reflexivity.
  - vm_compute. reflexivity.
Defined.

Lemma run_without_stop_leaves_container_witness :
  exists is' w',
    Lifecycle.InstanceState_run Demo.eager Sample.noVars (Sample.cloud 0) 0
      (NodeRun.newNodeState Sample.web) (NodeRun.newInstanceState 0) 0 Sample.world0
    = ((is', None), w')
    /\ is_ContainerId is' = "true".
Proof.
  destruct (run_without_stop_leaves_container Demo.eager Sample.noVars
              (Sample.cloud 0) 0 (NodeRun.newNodeState Sample.web)
              (NodeRun.newInstanceState 0) 0 Sample.world0
              (snd (Driver.Create Demo.eager
                      (Lifecycle.cidfileOf (Sample.cloud 0)
                         (NodeRun.newNodeState Sample.web) 0) [] Sample.world0))
              (snd (Driver.Start Demo.eager "true" true
                      (snd (Driver.Create Demo.eager
                              (Lifecycle.cidfileOf (Sample.cloud 0)
                                 (NodeRun.newNodeState Sample.web) 0) []
                              Sample.world0))))
              "true")
    as (is' & w' & Hrun & Hcid & _).
  - reflexivity.
  - reflexivity.
  - vm_compute. reflexivity.
  - vm_compute. reflexivity.
  - exists is', w'. split; [exact Hrun | exact Hcid].
Defined.

(** ** The run flags of the commands *)

(** X21. Reading back the flags the two commands build: [cargo up]
    sets [Create], [Prepare], [Detach] and [Remove] as its options say
    and never [Run] or [Stop]; [cargo run] always sets [Prepare] and
    [Run], sets [Stop] exactly when neither detach nor hold is asked,
    so never together with [Detach], and the others as its options
    say. *)
Theorem command_flags_read_back
    (optCreate optPrepare optDetach optHold optRemove : bool) :
  let up := Cli.startCloudFlags optCreate optPrepare optDetach optRemove in
  let run := Cli.runCloudFlags optCreate optDetach optHold optRemove in
  (hasFlag up Flag.Create = optCreate
   /\ hasFlag up Flag.Prepare = optPrepare
   /\ hasFlag up Flag.Run = false
   /\ hasFlag up Flag.Detach = optDetach
   /\ hasFlag up Flag.Stop = false
   /\ hasFlag up Flag.Remove = optRemove)
  /\ (hasFlag run Flag.Create = optCreate
      /\ hasFlag run Flag.Prepare = true
      /\ hasFlag run Flag.Run = true
      /\ hasFlag run Flag.Detach = optDetach
      /\ hasFlag run Flag.Stop = negb optDetach && negb optHold
      /\ hasFlag run Flag.Remove = optRemove).
Proof.
  destruct optCreate, optPrepare, optDetach, optHold, optRemove;
    vm_compute; repeat split.
Qed.

(** ** The node run *)

Section NodeEdges.

Import NodeRun.

Variable QueryVar : VarContext -> string -> QueryResult.
Variable mkdirAll : string -> option error.
Variable LoadImage : string -> option error.
Variable instanceRun : NodeState -> nat -> InstanceState -> InstanceState * option error.



Lemma NodeState_run_loaded (cs : CloudState) (n : nat) (ns : NodeState) :
  mkdirAll (cs_stateDir cs) = None ->
  LoadImage (Image (ns_Node ns)) = None ->
  let shared := Derived.taskState QueryVar cs n ns in
  NodeState_run QueryVar mkdirAll LoadImage instanceRun cs n ns
  = {| rr_state := set_Instances shared
                     (imap (instanceTask instanceRun shared) (ns_Instances ns));
       rr_err := None;
       rr_spawned := seq 0 (length (ns_Instances ns)) |}.
Proof.
  intros Hmk Hload shared.
  assert (Hp : (if hasFlag (cs_RunFlags cs) Flag.Prepare
                then @None error else None) = None)
    by now destruct (hasFlag _ _).
  unfold NodeState_run, prepareNode. rewrite Hmk.
  cbn [ns_Node ns_UpdateVar set_Image set_DockerArgs].
  rewrite Hload, Hp.
  unfold shared, Derived.taskState.
  cbv beta iota zeta delta
    [set_Instances set_DockerArgs set_Image ns_UpdateVar ns_Node ns_Image
     ns_LocalVars ns_DockerArgs ns_Error ns_Stopped ns_Instances].
  rewrite length_imap, fold_left_snoc, !fold_left_pairs.
  destruct (Privileged _), (negb (String.eqb (Entrypoint _) ""));
    simpl; rewrite <- ?app_assoc; simpl; reflexivity.
Qed.

(** X23. Once the state directory exists and the image is loaded, the
    node run hands one and the same node state to every instance task:
    the three node variables published, the image resolved, and the
    complete argument list, made of the workspace mount and working
    directory, then the privileged switch, the entry point, the
    environment and the volumes, then the resolved image, then the
    command. *)
Theorem node_run_hands_complete_state (cs : CloudState) (n : nat) (ns : NodeState) :
  mkdirAll (cs_stateDir cs) = None ->
  LoadImage (Image (ns_Node ns)) = None ->
  let shared := Derived.taskState QueryVar cs n ns in
  NodeState_run QueryVar mkdirAll LoadImage instanceRun cs n ns
  = {| rr_state := set_Instances shared
                     (imap (instanceTask instanceRun shared) (ns_Instances ns));
       rr_err := None;
       rr_spawned := seq 0 (length (ns_Instances ns)) |}.
Proof. exact (NodeState_run_loaded cs n ns). Qed.

(** X24. The node variables are published before the image is loaded,
    and the image is loaded under its declared name, not its resolved
    one: a node whose load fails still answers [template], [instances]
    and [image], the last with the resolved name, and its argument list
    stops at the workspace mount and working directory. *)
Theorem load_failure_comes_after_publication
    (cs : CloudState) (n : nat) (ns : NodeState) (e : error) :
  mkdirAll (cs_stateDir cs) = None ->
  LoadImage (Image (ns_Node ns)) = Some e ->
  let resolved := Subst.Substitute
    (QueryVar {| Cloud := cs; ctx_Node := Some n; ctx_Instance := None |})
    (Image (ns_Node ns)) in
  let ns' := rr_state (nodeTask QueryVar mkdirAll LoadImage instanceRun cs n ns) in
  ns_Error ns' = Some e
  /\ ns_Image ns' = resolved
  /\ localVars_QueryVar (ns_LocalVars ns') "template" = (Name (ns_Node ns), true)
  /\ localVars_QueryVar (ns_LocalVars ns') "instances"
     = (pretty (length (ns_Instances ns)), true)
  /\ localVars_QueryVar (ns_LocalVars ns') "image" = (resolved, true)
  /\ ns_DockerArgs ns' = ["-v"; cs_DataDir cs +:+ ":" +:+ workspace; "-w"; workspace].
Proof.
  intros Hmk Hload resolved ns'. subst ns'.
  unfold nodeTask, NodeState_run. rewrite Hmk.
  cbn [ns_Node ns_UpdateVar set_Image set_DockerArgs].
  rewrite Hload.
  cbv beta iota zeta delta
    [rr_state rr_err finishNode set_DockerArgs set_Image ns_UpdateVar ns_Node
     ns_Image ns_LocalVars ns_DockerArgs ns_Error ns_Stopped ns_Instances
     localVars_QueryVar localVars_UpdateVar values].
  fold resolved.
  rewrite !lookup_insert_eq.
  rewrite (lookup_insert_ne _ "image" "instances") by discriminate.
  rewrite lookup_insert_eq.
  rewrite (lookup_insert_ne _ "image" "template") by discriminate.
  rewrite (lookup_insert_ne _ "instances" "template") by discriminate.
  rewrite lookup_insert_eq.
  repeat split.
Qed.

End NodeEdges.


Lemma node_run_hands_complete_state_witness :
  NodeRun.rr_spawned
    (NodeRun.NodeState_run Sample.noVars Sample.mkdirOk Sample.loadOk
       Sample.secondFails (Sample.cloud 0) 0 (NodeRun.newNodeState Sample.web))
  = [0; 1].
Proof.
  rewrite (node_run_hands_complete_state Sample.noVars Sample.mkdirOk Sample.loadOk
             Sample.secondFails (Sample.cloud 0) 0 (NodeRun.newNodeState Sample.web));
    reflexivity.
Defined.

Lemma load_failure_comes_after_publication_witness :
  localVars_QueryVar
    (ns_LocalVars
       (NodeRun.rr_state
          (NodeRun.nodeTask Sample.noVars Sample.mkdirOk Sample.loadFails
             Sample.secondFails (Sample.cloud 0) 0 (NodeRun.newNodeState Sample.web))))
    "instances"
  = (pretty 2, true).
Proof.
  pose proof (load_failure_comes_after_publication Sample.noVars Sample.mkdirOk
                Sample.loadFails Sample.secondFails (Sample.cloud 0) 0
                (NodeRun.newNodeState Sample.web) "pull failed") as H.
  cbv zeta in H. destruct H as (_ & _ & _ & H & _); [reflexivity | reflexivity |].
  exact H.
Defined.

(** ** The image cache *)

Section CacheEdges.

Import ImageCache.

Variable Pull : list string -> string -> option error.

Lemma countIf_pos (p : Caller -> bool) (l : list Caller) (t : nat) (c : Caller) :
  l !! t = Some c -> p c = true -> 0 < countIf p l.
Proof.
  revert t. induction l as [|x l IH]; intros t H Hp; [discriminate|].
  destruct t as [|t]; simpl in *.
  - injection H as ->. rewrite Hp. simpl. lia.
  - specialize (IH t H Hp). lia.
Qed.

Lemma step_keeps_complete (t : nat) (s : State) (name : string) (l : ImageLoader) :
  Inv s ->
  Images s !! name = Some l -> il_complete l = true ->
  Images (step Pull t s) !! name = Some l.
Proof.
  intros [_ Hcount] Hl Hc. destruct (Hcount name) as [Hsum _].
  unfold nDone, nEntry in Hsum. rewrite Hl, Hc in Hsum. cbn [Nat.b2n] in Hsum.
  unfold step. destruct (callers s !! t) as [c|] eqn:Ht; [|exact Hl].
  destruct c as [cn pc]. cbn [c_name c_pc].
  destruct pc; cbn [Images].
  - destruct (Images s !! cn) eqn:Hcn; cbn [Images]; [exact Hl|].
    rewrite lookup_insert_ne; [exact Hl | congruence].
  - destruct (decide (cn = name)) as [->|Hne].
    + pose proof (countIf_pos (atPc name isLoad) _ _ _ Ht (atPc_at name isLoad Load)).
      unfold nLoad in Hsum. cbn [isLoad] in *. lia.
    + now rewrite lookup_alter_ne.
  - destruct (decide (cn = name)) as [->|Hne].
    + pose proof (countIf_pos (atPc name isStore) _ _ _ Ht (atPc_at name isStore Store)).
      unfold nStore in Hsum. cbn [isStore] in *. lia.
    + now rewrite lookup_alter_ne.
  - destruct (Images s !! cn) as [l'|]; [destruct (il_complete l')|]; exact Hl.
  - destruct (Images s !! cn); exact Hl.
  - exact Hl.
Qed.

Lemma run_keeps_complete (sched : list nat) (s : State) (name : string)
    (l : ImageLoader) :
  Inv s ->
  Images s !! name = Some l -> il_complete l = true ->
  Images (run Pull sched s) !! name = Some l.
Proof.
  revert s. induction sched as [|t sched IH]; intros s HI Hl Hc; [exact Hl|].
  cbn [run fold_left]. fold (run Pull sched (step Pull t s)).
  apply IH; [now apply step_Inv | now apply step_keeps_complete | exact Hc].
Qed.

(** X25. The outcome recorded for an image is final: once an entry of
    the cache is complete, no later step of any caller changes it,
    whatever the schedule.  A pull that failed is not tried again during
    the activation, and its error is what every later caller finds. *)
Theorem complete_entry_is_final
    (names : list string) (sched later : list nat) (name : string)
    (l : ImageLoader) :
  Images (run Pull sched (init names)) !! name = Some l ->
  il_complete l = true ->
  Images (run Pull (sched ++ later) (init names)) !! name = Some l.
Proof.
  intros Hl Hc. rewrite run_app.
  apply run_keeps_complete; [|exact Hl|exact Hc].
  apply run_Inv, init_Inv.
Qed.

Lemma step_pulls_requested (t : nat) (s : State) :
  Forall (fun n => n ∈ map c_name (callers s)) (pulls s) ->
  Forall (fun n => n ∈ map c_name (callers s)) (pulls (step Pull t s)).
Proof.
  intros H. unfold step. destruct (callers s !! t) as [c|] eqn:Ht; [|exact H].
  destruct c as [cn pc]. cbn [c_name c_pc].
  destruct pc; cbn [pulls].
  - destruct (Images s !! cn); exact H.
  - apply Forall_app. split; [exact H|]. constructor; [|constructor].
    change (map c_name (callers s)) with (c_name <$> callers s).
    apply list_elem_of_fmap. exists (at_ cn Load). split; [reflexivity|].
    eapply list_elem_of_lookup_2; exact Ht.
  - exact H.
  - destruct (Images s !! cn) as [l'|]; [destruct (il_complete l')|]; exact H.
  - destruct (Images s !! cn); exact H.
  - exact H.
Qed.

Lemma run_pulls_requested (sched : list nat) (s : State) :
  Forall (fun n => n ∈ map c_name (callers s)) (pulls s) ->
  Forall (fun n => n ∈ map c_name (callers s)) (pulls (run Pull sched s)).
Proof.
  revert s. induction sched as [|t sched IH]; intros s H; [exact H|].
  cbn [run fold_left]. fold (run Pull sched (step Pull t s)).
  assert (Hn : map c_name (callers (step Pull t s)) = map c_name (callers s))
    by apply (run_names Pull [t] s).
  rewrite <- Hn. apply IH. rewrite Hn. now apply step_pulls_requested.
Qed.

(** X26. Only images that some caller asked for are ever pulled,
    whatever the schedule: the cache pulls nothing on its own. *)
Theorem only_requested_images_are_pulled
    (names : list string) (sched : list nat) (name : string) :
  name ∈ pulls (run Pull sched (init names)) -> name ∈ names.
Proof.
  intros Hin.
  pose proof (run_pulls_requested sched (init names)) as H.
  assert (Hnames : map c_name (callers (init names)) = names).
  { unfold init. cbn [callers]. rewrite map_map. cbn. apply map_id. }
  rewrite Hnames in H.
  pose proof (proj1 (Forall_forall _ _) (H ltac:(constructor)) name Hin) as G.
  exact G.
Qed.

End CacheEdges.

Lemma run_pulls_witness_data :
  ImageCache.pulls
    (ImageCache.run Sample.pullFails [0; 0] (ImageCache.init ["nginx"; "nginx"]))
  = ["nginx"].
Proof. vm_compute. reflexivity. Qed.

Lemma complete_entry_is_final_witness :
  ImageCache.Images
    (ImageCache.run Sample.pullFails ([0; 0; 0] ++ [1; 1; 1; 0])
       (ImageCache.init ["nginx"; "nginx"])) !! "nginx"
  = Some {| ImageCache.il_Name := "nginx";
            ImageCache.il_Error := Some "pull failed";
            ImageCache.il_complete := true |}.
Proof.
  apply (complete_entry_is_final Sample.pullFails ["nginx"; "nginx"] [0; 0; 0]
           [1; 1; 1; 0] "nginx").
  - vm_compute. reflexivity.
  - reflexivity.
Defined.

Lemma only_requested_images_are_pulled_witness :
  "nginx" ∈ ImageCache.pulls
              (ImageCache.run Sample.pullFails [0; 0]
                 (ImageCache.init ["nginx"; "nginx"]))
  /\ "nginx" ∈ ["nginx"; "nginx"].
Proof.
  assert (H : "nginx" ∈ ImageCache.pulls
                (ImageCache.run Sample.pullFails [0; 0]
                   (ImageCache.init ["nginx"; "nginx"])))
    by (rewrite run_pulls_witness_data; left).
  split; [exact H|].
  exact (only_requested_images_are_pulled Sample.pullFails ["nginx"; "nginx"]
           [0; 0] "nginx" H).
Defined.

(** ** Teardown *)

Section TeardownEdges.

Import Driver Lifecycle Teardown.

Variable host : Host.

Lemma stopInstances_log (iss : list InstanceState) (w : World) :
  log (snd (stopInstances host iss w))
  = log w ++ map (fun cid => Command ["stop"; cid])
               (filter (fun cid => cid <> "") (map is_ContainerId iss)).
Proof.
  revert w. induction iss as [|is_ iss IH]; intros w.
  - cbn. now rewrite app_nil_r.
  - cbn [stopInstances map]. unfold bind at 1, InstanceState_stop.
    rewrite filter_cons.
    destruct (String.eqb_spec (is_ContainerId is_) "") as [E|E]; cbn [negb].
    + unfold ret at 1. rewrite IH. now rewrite decide_False by tauto.
    + unfold bind at 1, Stop, cmdRun, ret at 1. rewrite IH.
      rewrite decide_True by exact E.
      cbn [afterCommand log map]. now rewrite <- app_assoc.
Qed.

Lemma stopNodes_log (nss : list NodeState) (w : World) :
  log (snd (stopNodes host nss w))
  = log w ++ map (fun cid => Command ["stop"; cid])
               (filter (fun cid => cid <> "")
                  (flat_map (fun ns => map is_ContainerId (ns_Instances ns)) nss)).
Proof.
  revert w. induction nss as [|ns nss IH]; intros w.
  - cbn. now rewrite app_nil_r.
  - cbn [stopNodes flat_map]. unfold bind at 1.
    pose proof (stopInstances_log (ns_Instances ns) w) as H.
    destruct (stopInstances host (ns_Instances ns) w) as [u w1]. cbn [snd] in H.
    rewrite IH, H, filter_app, map_app. now rewrite <- app_assoc.
Qed.

(** X27. The teardown runs one [stop] command for each instance that
    holds a container id, node by node and instance by instance in
    declaration order, and nothing else: instances without a container,
    because their create failed or they were already removed, are
    skipped, and no container is removed. *)
Theorem StopAndWait_stops_live_containers (cs : CloudState) (w : World) :
  log (snd (StopAndWait host cs w))
  = log w ++ map (fun cid => Command ["stop"; cid]) (liveContainers cs).
Proof. apply stopNodes_log. Qed.

End TeardownEdges.

(** ** Choosing the cluster *)

Lemma clusterByName_spec (l : list Activation.Cluster) (name : string) :
  match Config.clusterByName l name with
  | Some c =>
      exists before after,
        l = before ++ c :: after
        /\ Activation.cl_Name c = name
        /\ Forall (fun c' => Activation.cl_Name c' <> name) before
  | None => Forall (fun c => Activation.cl_Name c <> name) l
  end.
Proof.
  induction l as [|x l IH]; cbn [Config.clusterByName]; [constructor|].
  destruct (String.eqb_spec (Activation.cl_Name x) name) as [E|E].
  - exists [], l. auto.
  - destruct (Config.clusterByName l name) as [c|].
    + destruct IH as (before & after & -> & Hc & Hb).
      exists (x :: before), after. repeat split; [exact Hc | now constructor].
    + now constructor.
Qed.

(** X28. The default cluster of a configuration: none when no cluster
    is declared; the first declared cluster when no default is named;
    otherwise the first cluster bearing the default's name, and none
    when no cluster bears it, even though clusters are declared. *)
Theorem DefaultCluster_choice (cs : Config.Clusters) :
  match Config.DefaultCluster cs with
  | Some c =>
      exists before after,
        Config.cs_Clusters cs = before ++ c :: after
        /\ (if String.eqb (Config.cs_Default cs) "" then before = []
            else Activation.cl_Name c = Config.cs_Default cs
                 /\ Forall (fun c' => Activation.cl_Name c' <> Config.cs_Default cs)
                      before)
  | None =>
      Config.cs_Clusters cs = []
      \/ (Config.cs_Default cs <> ""
          /\ Forall (fun c => Activation.cl_Name c <> Config.cs_Default cs)
               (Config.cs_Clusters cs))
  end.
Proof.
  unfold Config.DefaultCluster, Config.ClusterByName.
  destruct (Config.cs_Clusters cs) as [|first rest] eqn:E; [now left|].
  destruct (String.eqb_spec (Config.cs_Default cs) "") as [D|D].
  - exists [], rest. auto.
  - pose proof (clusterByName_spec (first :: rest) (Config.cs_Default cs)) as H.
    destruct (Config.clusterByName (first :: rest) (Config.cs_Default cs)) as [c|].
    + destruct H as (before & after & Hl & Hc & Hb).
      exists before, after. auto.
    + right. auto.
Qed.

(** ** The activation as a whole *)



Section ActivationEdges.

Import NodeRun Activation.

Variable QueryVar : VarContext -> string -> QueryResult.
Variable mkdirAll : string -> option error.
Variable LoadImage : string -> option error.
Variable instanceRun : NodeState -> nat -> InstanceState -> InstanceState * option error.




End ActivationEdges.
